(** * Aghamon: a shallow embedding of [main.go] and its specification

    Aghamon is a small dashboard: per browser request it hands its HTTP
    client one authenticated GET for an AdGuard Home appliance, decodes
    the JSON answer and renders HTML tables.  This development embeds the functions
    of [main.go] as Rocq functions and states the properties of the
    natural-language specification about them.

    Conventions.
    - A Go [string] is a sequence of bytes: Rocq's [string] (a list of
      8-bit [ascii]).  A [[]byte] is modelled by the same type.
    - A Go [int] is a [Z]; [%d] prints it with stdpp's [pretty].  A
      [float64] is a primitive [float].
    - A Go [error] is represented by the text its [Error()] method returns.
    - A Go [map[string]V] is a [gmap string V]; the order in which a
      [range] visits it is chosen by the runtime.
    - Calls that leave the program (files, embedded file systems, the
      HTTP client, the listener) are answered by an environment [Env] and
      recorded in a trace of [Event]s.  The trace holds the calls the
      program makes, with their arguments: for the network this is the
      call of [http.Client.Do] with the request handed to it.  What the
      client then puts on the wire (the headers its transport adds, the
      requests it sends when it follows a redirect) is the library's own
      doing and is not described.
    - The libraries the program calls ([strings], [encoding/base64],
      [fmt], [yaml.v3], [net/http]) are modelled as far as the program
      exercises them; the JSON decoder, the yaml parser, the template
      engine, [strconv.Quote] outside ASCII, the merge key of yaml and the
      text of yaml's type errors are functions of the environment.

    The definitions come first, the facts after them. *)

From Stdlib Require Import ZArith Ascii String List.
From Stdlib Require Import Floats.PrimFloat Floats.FloatOps Floats.SpecFloat.
From stdpp Require Import base gmap strings list pretty.

Local Open Scope Z_scope.

(** The value of a byte, [uint(b)]. *)
Definition byte_value (b : ascii) : Z := Z.of_N (N_of_ascii b).

(** ** Go's [strings] package: the three functions [main.go] calls *)

Module GoStrings.

(** [strings.HasPrefix(s, prefix)]. *)
Fixpoint HasPrefix (s prefix : string) {struct prefix} : bool :=
  match prefix, s with
  | EmptyString, _ => true
  | String _ _, EmptyString => false
  | String p prefix', String c s' =>
      if decide (p = c) then HasPrefix s' prefix' else false
  end.

(** [strings.Index(s, substr)]: the position of the first occurrence of
    [substr] in [s], or [-1]. *)
Fixpoint Index (s substr : string) : Z :=
  if HasPrefix s substr then 0
  else match s with
       | EmptyString => -1
       | String _ s' =>
           let i := Index s' substr in
           if i <? 0 then -1 else i + 1
       end.

(** [strings.Contains(s, substr)] is [Index(s, substr) >= 0]. *)
Definition Contains (s substr : string) : bool := 0 <=? Index s substr.

(** The slice expression [s[n:]]. *)
Fixpoint slice_from (n : nat) (s : string) : string :=
  match n, s with
  | O, _ => s
  | S _, EmptyString => EmptyString
  | S n', String _ s' => slice_from n' s'
  end.

(** [strings.HasSuffix(s, suffix)] is
    [len(s) >= len(suffix) && s[len(s)-len(suffix):] == suffix]. *)
Definition HasSuffix (s suffix : string) : bool :=
  (String.length suffix <=? String.length s)%nat
  && bool_decide (slice_from (String.length s - String.length suffix) s = suffix).

End GoStrings.

(** ** Go's [encoding/base64]: [StdEncoding.EncodeToString] *)

Module Base64.

(** The alphabet of [StdEncoding] (RFC 4648, section 4). *)
Definition encodeStd : string :=
  "ABCDEFGHIJKLMNOPQRSTUVWXYZabcdefghijklmnopqrstuvwxyz0123456789+/".

Definition StdPadding : ascii := "="%char.

(** [uint(src[i])] *)
Definition uint (b : ascii) : Z := byte_value b.

(** [enc.encode[i]] *)
Definition encode (i : Z) : ascii :=
  match String.get (Z.to_nat i) encodeStd with
  | Some c => c
  | None => StdPadding
  end.

(** [Encoding.Encode]: three source bytes give four characters; a last
    group of one or two bytes is padded with [=]. *)
Fixpoint EncodeToString (src : string) : string :=
  match src with
  | EmptyString => EmptyString
  | String s0 EmptyString =>
      let val := Z.shiftl (uint s0) 16 in
      String (encode (Z.land (Z.shiftr val 18) 63))
        (String (encode (Z.land (Z.shiftr val 12) 63))
           (String StdPadding (String StdPadding EmptyString)))
  | String s0 (String s1 EmptyString) =>
      let val := Z.lor (Z.shiftl (uint s0) 16) (Z.shiftl (uint s1) 8) in
      String (encode (Z.land (Z.shiftr val 18) 63))
        (String (encode (Z.land (Z.shiftr val 12) 63))
           (String (encode (Z.land (Z.shiftr val 6) 63))
              (String StdPadding EmptyString)))
  | String s0 (String s1 (String s2 rest)) =>
      let val := Z.lor (Z.lor (Z.shiftl (uint s0) 16) (Z.shiftl (uint s1) 8))
                       (uint s2) in
      String (encode (Z.land (Z.shiftr val 18) 63))
        (String (encode (Z.land (Z.shiftr val 12) 63))
           (String (encode (Z.land (Z.shiftr val 6) 63))
              (String (encode (Z.land val 63))
                 (EncodeToString rest))))
  end.

(** The decoder of RFC 4648, to state that [EncodeToString] loses
    nothing.  [decode c] is the position of [c] in the alphabet
    ([enc.decodeMap]), [byte z] is the conversion [byte(z)]. *)
Fixpoint position (c : ascii) (alphabet : string) : option Z :=
  match alphabet with
  | EmptyString => None
  | String d rest =>
      if decide (c = d) then Some 0 else Z.succ <$> position c rest
  end.

Definition decode (c : ascii) : option Z := position c encodeStd.

Definition byte (z : Z) : ascii := ascii_of_N (Z.to_N (z mod 256)).

(** The 24 bits that four characters of the alphabet stand for. *)
Definition quantum (c0 c1 c2 c3 : ascii) : option Z :=
  v0 ← decode c0; v1 ← decode c1; v2 ← decode c2; v3 ← decode c3;
  Some (Z.lor (Z.lor (Z.lor (Z.shiftl v0 18) (Z.shiftl v1 12))
                     (Z.shiftl v2 6)) v3).

Fixpoint DecodeString (s : string) : option string :=
  match s with
  | EmptyString => Some EmptyString
  | String c0 (String c1 (String c2 (String c3 rest))) =>
      if decide (c3 = StdPadding) then
        if decide (rest = EmptyString) then
          if decide (c2 = StdPadding) then
            val ← quantum c0 c1 "A" "A";
            Some (String (byte (Z.shiftr val 16)) EmptyString)
          else
            val ← quantum c0 c1 c2 "A";
            Some (String (byte (Z.shiftr val 16))
                    (String (byte (Z.shiftr val 8)) EmptyString))
        else None
      else
        val ← quantum c0 c1 c2 c3;
        tail ← DecodeString rest;
        Some (String (byte (Z.shiftr val 16))
                (String (byte (Z.shiftr val 8))
                   (String (byte val) tail)))
  | _ => None
  end.

End Base64.

(** ** Go values and the runtime services the program relies on *)

(** An [error], by the text of its [Error()] method. *)
Definition error : Type := string.

(** The pair [(value, err)] a fallible Go function returns. *)
Inductive result (A : Type) : Type :=
| Ok (a : A)
| Err (err : error).
Arguments Ok {A} a.
Arguments Err {A} err.

(** Go raw string literals are transcribed verbatim, with an apostrophe
    standing for the double quote (the literals of [main.go] contain no
    apostrophe); [lit] puts the double quotes back. *)
Fixpoint lit (s : string) : string :=
  match s with
  | EmptyString => EmptyString
  | String c s' =>
      String (if decide (c = "'"%char) then "034"%char else c) (lit s')
  end.

(** *** [strconv] and [fmt.Sprintf], for the verbs [main.go] uses *)

Module Strconv.

(** [num / den] rounded to the nearest integer, ties to even. *)
Definition round_half_even (num den : Z) : Z :=
  let q := num / den in
  let r2 := 2 * (num mod den) in
  if r2 <? den then q
  else if den <? r2 then q + 1
  else if Z.even q then q else q + 1.

Fixpoint zeros (n : nat) : string :=
  match n with
  | O => EmptyString
  | S n' => String "0" (zeros n')
  end.

(** The digits of [n] millionths, as [integer.fraction]. *)
Definition fixed6 (n : Z) : string :=
  let fraction := pretty (n mod 1000000) in
  pretty (n / 1000000) +:+ "."
  +:+ zeros (6 - String.length fraction) +:+ fraction.

Definition sign (negative : bool) : string :=
  if negative then "-" else EmptyString.

(** [%.6f] on a [float64]: the exact binary value [m * 2^e], correctly
    rounded to six decimals. *)
Definition FormatFloat6 (f : float) : string :=
  match Prim2SF f with
  | S754_nan => "NaN"
  | S754_infinity negative => if negative then "-Inf" else "+Inf"
  | S754_zero negative => sign negative +:+ "0.000000"
  | S754_finite negative m e =>
      let n := if 0 <=? e then Z.pos m * 2 ^ e * 1000000
               else round_half_even (Z.pos m * 1000000) (2 ^ (- e)) in
      sign negative +:+ fixed6 n
  end.

(** [lowerhex[n]] *)
Definition lowerhex (n : Z) : ascii :=
  match String.get (Z.to_nat n) "0123456789abcdef" with
  | Some c => c
  | None => "0"%char
  end.

(** What [strconv.Quote] writes for one ASCII byte
    ([appendEscapedRune]): a backslash before the double quote and the
    backslash, the byte itself when it is printable, the escapes of Go
    for the others. *)
Definition quoted_byte (b : ascii) : string :=
  let r := byte_value b in
  if (r =? 34) || (r =? 92) then String "\" (String b EmptyString)
  else if (32 <=? r) && (r <=? 126) then String b EmptyString
  else if r =? 7 then "\a"
  else if r =? 8 then "\b"
  else if r =? 12 then "\f"
  else if r =? 10 then "\n"
  else if r =? 13 then "\r"
  else if r =? 9 then "\t"
  else if r =? 11 then "\v"
  else "\x" +:+ String (lowerhex (r / 16))
                   (String (lowerhex (r mod 16)) EmptyString).

Fixpoint quoted (s : string) : string :=
  match s with
  | EmptyString => EmptyString
  | String b s' => quoted_byte b +:+ quoted s'
  end.

(** Every byte is below [utf8.RuneSelf]. *)
Fixpoint ascii_only (s : string) : bool :=
  match s with
  | EmptyString => true
  | String b s' => (byte_value b <? 128) && ascii_only s'
  end.

(** [strconv.Quote(s)], the text of the verb [%q]: the quoted bytes
    between two double quotes.  On a string with a byte outside ASCII
    the library decodes UTF-8 and consults the Unicode tables: [wide] is
    its result there. *)
Definition Quote (wide : string → string) (s : string) : string :=
  if ascii_only s then
    String "034" (quoted s) +:+ String "034" EmptyString
  else wide s.

End Strconv.

Module Fmt.

Inductive Arg :=
| ArgString (s : string)
| ArgInt (i : Z)
| ArgFloat (f : float)
| ArgError (err : error).

(** The text of one operand under one verb; a verb that does not fit
    its operand, or a missing operand, prints Go's [%!] marker (no
    call of [main.go] does that). *)
Definition operand (verb : string) (a : option Arg) : string :=
  match verb, a with
  | "s", Some (ArgString s) => s
  | "d", Some (ArgInt i) => pretty i
  | "v", Some (ArgError err) => err
  | ".6f", Some (ArgFloat f) => Strconv.FormatFloat6 f
  | _, Some _ => "%!" +:+ verb +:+ "(BADVERB)"
  | _, None => "%!" +:+ verb +:+ "(MISSING)"
  end.

Fixpoint Sprintf (format : string) (args : list Arg) : string :=
  match format with
  | EmptyString => EmptyString
  | String "%" (String "s" rest) =>
      operand "s" (head args) +:+ Sprintf rest (tail args)
  | String "%" (String "d" rest) =>
      operand "d" (head args) +:+ Sprintf rest (tail args)
  | String "%" (String "v" rest) =>
      operand "v" (head args) +:+ Sprintf rest (tail args)
  | String "%" (String "." (String "6" (String "f" rest))) =>
      operand ".6f" (head args) +:+ Sprintf rest (tail args)
  | String c rest => String c (Sprintf rest args)
  end.

End Fmt.

(** *** [gopkg.in/yaml.v3]: decoding a document into a struct

    The decoder works on the node tree of the first document of the
    stream.  Mapping keys are scalars here, as in every file of the shape
    [adguard: {server_url, username, password}], and aliases are resolved
    by the parser.  Two things are left to the library, as functions
    given to the decoder: what it does with a mapping that has the key
    [<<] (the merge key), and the text of a type error, which names the
    lines of the file. *)

Module Yaml.

(** A scalar is a null or has a text, the one a string field receives. *)
#[warnings="-register-all"] Inductive Node :=
| ScalarNode (null : bool) (Value : string)
| MappingNode (Content : list (string * Node))
| SequenceNode (Content : list Node).

(** The kind of the Go value a node is decoded into. *)
Inductive Kind :=
| StringKind
| StructKind.

(** What the decoder adds to [d.terrors]. *)
Inductive Cause :=
| CannotUnmarshal (n : Node) (into : Kind)
    (* line N: cannot unmarshal <tag> into <type> *)
| AlreadyDefined (Content : list (string * Node)).
    (* line N: mapping key <key> already defined at line M, for each
       pair of equal keys of the mapping *)

(** The state of a decoder writing into a value of type [T]: the value
    so far and the accumulated type errors ([d.terrors]); or the error
    that stops the decoder at once ([fail]). *)
Definition decoding (T : Type) : Type := result (T * list Cause).

(** [d.unmarshal(n, out)] for [out] of kind [string]: a scalar sets its
    text, a null leaves the field as it is, a collection is a type
    error. *)
Definition unmarshal_string (n : Node) (out : string) : decoding string :=
  match n with
  | ScalarNode true _ => Ok (out, [])
  | ScalarNode false v => Ok (v, [])
  | MappingNode _ => Ok (out, [CannotUnmarshal n StringKind])
  | SequenceNode _ => Ok (out, [CannotUnmarshal n StringKind])
  end.

(** One round of the loop of [d.mappingStruct]: [field] decodes the
    value of the key into the struct (a key without a field is skipped,
    [KnownFields] being off), and its type errors are added. *)
Definition visit {T : Type} (field : string → Node → T → decoding T)
    (st : decoding T) (kv : string * Node) : decoding T :=
  match st with
  | Err err => Err err
  | Ok (out, terrors) =>
      match field kv.1 kv.2 out with
      | Err err => Err err
      | Ok (out', terrors') => Ok (out', terrors ++ terrors')
      end
  end.

(** [d.mapping] into a struct.  A mapping with the key [<<] is merged
    by the library: [merge] is its result.  Otherwise a mapping with a
    repeated key is refused, and [d.mappingStruct] visits the pairs in
    order. *)
Definition mapping {T : Type}
    (merge : list (string * Node) → T → decoding T)
    (field : string → Node → T → decoding T)
    (Content : list (string * Node)) (out : T) : decoding T :=
  if bool_decide ("<<" ∈ Content.*1) then merge Content out
  else if bool_decide (NoDup Content.*1) then
    foldl (visit field) (Ok (out, [])) Content
  else Ok (out, [AlreadyDefined Content]).

(** [d.unmarshal(n, out)] for [out] of kind struct. *)
Definition unmarshal_struct {T : Type}
    (merge : list (string * Node) → T → decoding T)
    (field : string → Node → T → decoding T) (n : Node) (out : T)
    : decoding T :=
  match n with
  | MappingNode Content => mapping merge field Content out
  | ScalarNode true _ => Ok (out, [])
  | ScalarNode false _ => Ok (out, [CannotUnmarshal n StructKind])
  | SequenceNode _ => Ok (out, [CannotUnmarshal n StructKind])
  end.

(** [Decoder.Decode]: [io.EOF] when the stream holds no document, a
    [TypeError] for the accumulated errors when there are some;
    [describe] is its text. *)
Definition Decode {T : Type} (describe : list Cause → error)
    (merge : list (string * Node) → T → decoding T)
    (field : string → Node → T → decoding T)
    (document : option Node) (out : T) : result T :=
  match document with
  | None => Err "EOF"
  | Some n =>
      match unmarshal_struct merge field n out with
      | Err err => Err err
      | Ok (v, []) => Ok v
      | Ok (_, terrors) => Err (describe terrors)
      end
  end.

End Yaml.

(** ** The program: [main.go] *)

Module Aghamon.

Import GoStrings.

(** *** Types *)

(** The anonymous struct of the field [AdGuard]. *)
Record AdGuardConfig := {
  ServerURL : string;   (* yaml:server_url *)
  Username : string;    (* yaml:username *)
  Password : string     (* yaml:password *)
}.

(** [Config] represents the configuration structure. *)
Record Config := {
  AdGuard : AdGuardConfig   (* yaml:adguard *)
}.

(** The anonymous struct of the field [WhoisInfo]. *)
Record Whois := {
  Country : string;
  OrgName : string;
  City : string
}.

(** [Client] represents a DNS client from AdGuard Home. *)
Record Client := {
  IP : string;
  Name : string;
  Source : string;
  WhoisInfo : Whois
}.

(** [ClientsResponse] represents the response from the AdGuard Home API. *)
Record ClientsResponse := {
  Clients : list Client;
  AutoClients : list Client;
  SupportedTags : list string
}.

(** [StatsResponse] represents the response from the stats API. *)
Record StatsResponse := {
  TimeUnits : string;
  TopQueriedDomains : list (gmap string Z);
  TopClients : list (gmap string Z);
  TopBlockedDomains : list (gmap string Z);
  TopUpstreamsResponses : list (gmap string Z);
  TopUpstreamsAvgTime : list (gmap string float);
  DNSQueries : list Z;
  BlockedFiltering : list Z;
  NumDNSQueries : Z;
  NumBlockedFiltering : Z;
  AvgProcessingTime : float
}.

(** *** [net/http]: requests, and the answers written through [echo] *)

(** An [http.Request]: method, URL and header ([map[string][]string]). *)
Record Request := {
  Method : string;
  URL : string;
  Header : gmap string (list string)
}.

(** [req.Header.Set(key, value)] replaces the values of [key] by the
    single [value].  (The keys [main.go] sets are already in canonical
    MIME form.) *)
Definition Header_Set (key value : string) (req : Request) : Request :=
  {| Method := Method req; URL := URL req;
     Header := <[key := [value]]> (Header req) |}.

(** [req.Header.Get(key)]: the first value of [key], or the empty
    string. *)
Definition Header_Get (key : string) (req : Request) : string :=
  match Header req !! key with
  | Some (value :: _) => value
  | _ => EmptyString
  end.

(** An [http.Response], reduced to what [io.ReadAll(resp.Body)] gives. *)
Record HTTPResponse := {
  Body : result string
}.

Definition StatusOK : Z := 200.
Definition StatusForbidden : Z := 403.
Definition StatusNotFound : Z := 404.
Definition StatusInternalServerError : Z := 500.

(** What a handler writes through its [echo.Context]. *)
Inductive Response :=
| String_ (code : Z) (s : string)                       (* c.String *)
| Blob (code : Z) (contentType : string) (b : string)   (* c.Blob *)
| Render (code : Z) (name : string) (Title Content : string). (* c.Render *)

(** *** The environment of the process *)

(** The two embedded file systems. *)
Inductive EmbedFS :=
| templateFS   (* go:embed templates/*.html *)
| assetFS.     (* go:embed assets/* *)

(** The calls the program makes to the outside, in the order it makes
    them.  [EvDo req] is one call of [http.Client.Do], [req] being the
    request the program hands to the client; the requests the client
    sends for it are not events. *)
Inductive Event :=
| EvOpen (name : string)                    (* os.Open *)
| EvReadFile (fs : EmbedFS) (name : string) (* embed.FS.ReadFile *)
| EvDo (req : Request)                      (* http.Client.Do *)
| EvStart (address : string).               (* echo.Start *)

(** What the outside answers, and the library functions that are left
    abstract. *)
Record Env := {
  (** the environment variables of the process *)
  environ : gmap string string;
  (** the files of the working directory: contents, or the error of
      [os.Open] *)
  files : string → result string;
  (** the embedded files *)
  embedded : EmbedFS → string → result string;
  (** the yaml parser: the first document of a stream, if any *)
  yaml_parse : string → result (option Yaml.Node);
  (** [template.Parse]: its error, if any *)
  template_Parse : string → option error;
  (** the yaml decoder on a mapping with the merge key, into the struct
      of [AdGuard] and into [Config] *)
  yaml_merge_AdGuard :
    list (string * Yaml.Node) → AdGuardConfig → Yaml.decoding AdGuardConfig;
  yaml_merge_Config :
    list (string * Yaml.Node) → Config → Yaml.decoding Config;
  (** the text of a [yaml.TypeError] *)
  yaml_TypeError : list Yaml.Cause → error;
  (** the syntax checks of [url.Parse], the one on control bytes apart:
      the error [url.Parse] returns, if any *)
  url_syntax : string → option error;
  (** [strconv.Quote] on a string with a byte outside ASCII *)
  strconv_Quote : string → string;
  (** what [http.Client.Do] returns for the request handed to it, once
      the client is done with it (its transport adds headers of its own,
      and a redirect makes it send further requests): the last response,
      or its error *)
  roundTrip : Request → result HTTPResponse;
  (** [json.Unmarshal] into a [ClientsResponse] and a [StatsResponse] *)
  json_Unmarshal_clients : string → result ClientsResponse;
  json_Unmarshal_stats : string → result StatsResponse;
  (** where each [range] over a map starts: Go leaves the iteration
      order of a map unspecified and randomises it; the first argument
      numbers the table being rendered, the second the item *)
  map_start : nat → nat → nat;
  (** [e.Start(address)]: the error it returns, or nothing while the
      server keeps serving *)
  echo_Start : string → option error
}.

(** A computation with its trace of outside calls. *)
Definition IO (A : Type) : Type := list Event * A.

Definition ret {A : Type} (a : A) : IO A := ([], a).

Definition bind {A B : Type} (m : IO A) (k : A → IO B) : IO B :=
  let '(t1, a) := m in
  let '(t2, b) := k a in
  (t1 ++ t2, b).

Notation "x <- m ;; k" := (bind m (λ x, k))
  (at level 100, m at next level, right associativity).

Definition call {A : Type} (ev : Event) (answer : A) : IO A := ([ev], answer).

Definition trace {A : Type} (m : IO A) : list Event := m.1.
Definition value {A : Type} (m : IO A) : A := m.2.

(** *** Configuration *)

(** [var config Config]: the zero value. *)
Definition zeroConfig : Config :=
  {| AdGuard := {| ServerURL := EmptyString; Username := EmptyString;
                   Password := EmptyString |} |}.

(** The fields of the struct of [AdGuard], by their yaml tags. *)
Definition AdGuard_field (key : string) (n : Yaml.Node) (out : AdGuardConfig)
    : Yaml.decoding AdGuardConfig :=
  if decide (key = "server_url") then
    match Yaml.unmarshal_string n (ServerURL out) with
    | Err err => Err err
    | Ok (v, terrors) =>
        Ok ({| ServerURL := v; Username := Username out;
               Password := Password out |}, terrors)
    end
  else if decide (key = "username") then
    match Yaml.unmarshal_string n (Username out) with
    | Err err => Err err
    | Ok (v, terrors) =>
        Ok ({| ServerURL := ServerURL out; Username := v;
               Password := Password out |}, terrors)
    end
  else if decide (key = "password") then
    match Yaml.unmarshal_string n (Password out) with
    | Err err => Err err
    | Ok (v, terrors) =>
        Ok ({| ServerURL := ServerURL out; Username := Username out;
               Password := v |}, terrors)
    end
  else Ok (out, []).

(** The field of [Config], by its yaml tag. *)
Definition Config_field (env : Env) (key : string) (n : Yaml.Node)
    (out : Config) : Yaml.decoding Config :=
  if decide (key = "adguard") then
    match Yaml.unmarshal_struct (yaml_merge_AdGuard env) AdGuard_field n
            (AdGuard out) with
    | Err err => Err err
    | Ok (v, terrors) => Ok ({| AdGuard := v |}, terrors)
    end
  else Ok (out, []).

(** [yaml.NewDecoder(file).Decode(&config)] *)
Definition Decoder_Decode (env : Env) (file : string) (config : Config)
    : result Config :=
  match yaml_parse env file with
  | Err err => Err err
  | Ok document =>
      Yaml.Decode (yaml_TypeError env) (yaml_merge_Config env)
        (Config_field env) document config
  end.

(** [loadConfig] loads the configuration from config.yaml. *)
Definition loadConfig (env : Env) : IO (result Config) :=
  file <- call (EvOpen "config.yaml") (files env "config.yaml") ;;
  match file with
  | Err err => ret (Err err)
  | Ok file =>
      let config := zeroConfig in
      match Decoder_Decode env file config with
      | Err err => ret (Err err)
      | Ok config => ret (Ok config)
      end
  end.

(** *** The appliance client *)

(** [getBasicAuth] returns the base64 encoded basic auth string. *)
Definition getBasicAuth (username password : string) : string :=
  let auth := username +:+ ":" +:+ password in
  Base64.EncodeToString auth.

(** [stringContainsCTLByte] of [net/url]: a byte below the space, or
    [0x7f]. *)
Fixpoint stringContainsCTLByte (s : string) : bool :=
  match s with
  | EmptyString => false
  | String b s' =>
      (byte_value b <? 32) || (byte_value b =? 127)
      || stringContainsCTLByte s'
  end.

(** The first result of [strings.Cut(rawURL, #)]: the text before the
    fragment. *)
Fixpoint before_fragment (rawURL : string) : string :=
  match rawURL with
  | EmptyString => EmptyString
  | String c rest =>
      if decide (c = "#"%char) then EmptyString
      else String c (before_fragment rest)
  end.

(** The text of the [*url.Error] of [url.Parse]: the operation, the
    URL quoted with [%q], the cause. *)
Definition url_Error (env : Env) (Op URL : string) (cause : error) : error :=
  Op +:+ " " +:+ Strconv.Quote (strconv_Quote env) URL +:+ ": " +:+ cause.

(** [http.NewRequest(method, url, nil)]: the URL is parsed, the header
    starts empty.  [url.Parse] cuts the fragment off and refuses what is
    left when it holds a control byte, with an error that quotes what
    it refused; its other checks are those of [url_syntax].  (The method
    [GET] is valid.) *)
Definition NewRequest (env : Env) (method url : string) : result Request :=
  let u := before_fragment url in
  if stringContainsCTLByte u then
    Err (url_Error env "parse" u "net/url: invalid control character in URL")
  else
    match url_syntax env url with
    | Some err => Err err
    | None => Ok {| Method := method; URL := url; Header := ∅ |}
    end.

(** [client.Do(req)]: one call of the client, which answers with the
    response it ends on or with its error. *)
Definition client_Do (env : Env) (req : Request) : IO (result HTTPResponse) :=
  call (EvDo req) (roundTrip env req).

(** [io.ReadAll(resp.Body)] *)
Definition ReadAll (resp : HTTPResponse) : result string := Body resp.

(** [fetchClients] fetches client data from the AdGuard Home API. *)
Definition fetchClients (env : Env) (config : Config)
    : IO (result ClientsResponse) :=
  let url := ServerURL (AdGuard config) +:+ "/control/clients" in
  match NewRequest env "GET" url with
  | Err err => ret (Err err)
  | Ok req =>
      let authHeader :=
        getBasicAuth (Username (AdGuard config)) (Password (AdGuard config)) in
      let req := Header_Set "Authorization" ("Basic " +:+ authHeader) req in
      let req := Header_Set "Accept" "application/json" req in
      let req := Header_Set "Referer" (ServerURL (AdGuard config) +:+ "/") req in
      resp <- client_Do env req ;;
      match resp with
      | Err err => ret (Err err)
      | Ok resp =>
          match ReadAll resp with
          | Err err => ret (Err err)
          | Ok body =>
              match json_Unmarshal_clients env body with
              | Err err => ret (Err err)
              | Ok clientsResponse => ret (Ok clientsResponse)
              end
          end
      end
  end.

(** [fetchStats] fetches stats data from the AdGuard Home API. *)
Definition fetchStats (env : Env) (config : Config)
    : IO (result StatsResponse) :=
  let url := ServerURL (AdGuard config) +:+ "/control/stats" in
  match NewRequest env "GET" url with
  | Err err => ret (Err err)
  | Ok req =>
      let authHeader :=
        getBasicAuth (Username (AdGuard config)) (Password (AdGuard config)) in
      let req := Header_Set "Authorization" ("Basic " +:+ authHeader) req in
      let req := Header_Set "Accept" "application/json" req in
      let req := Header_Set "Referer" (ServerURL (AdGuard config) +:+ "/") req in
      resp <- client_Do env req ;;
      match resp with
      | Err err => ret (Err err)
      | Ok resp =>
          match ReadAll resp with
          | Err err => ret (Err err)
          | Ok body =>
              match json_Unmarshal_stats env body with
              | Err err => ret (Err err)
              | Ok statsResponse => ret (Ok statsResponse)
              end
          end
      end
  end.

(** *** The view renderer: the raw string literals *)

(** [generateHTMLTable]: the opening of the table *)
Definition clientsTableHead : string := lit
"<div class='table-container'><div class='mobile-table-info'>Swipe horizontally to view all columns</div><table>
    <thead>
      <tr>
        <th>IP Address</th>
        <th>Name</th>
        <th>Source</th>
        <th>Country</th>
        <th>Organization</th>
        <th>City</th>
      </tr>
    </thead>
    <tbody>".

(** [generateHTMLTable]: the format of a row *)
Definition clientRowFormat : string := lit
"
      <tr>
        <td>%s</td>
        <td>%s</td>
        <td>%s</td>
        <td>%s</td>
        <td>%s</td>
        <td>%s</td>
      </tr>".

(** the closing of every table *)
Definition tableFoot : string := lit
"</tbody></table></div>".

(** the title of a ranked table *)
Definition titleFormat : string := lit
"<h3>%s</h3>".

(** [generateStatsTable]: the opening, up to the value label *)
Definition statsTableHead1 : string := lit
"<div class='table-container'><div class='mobile-table-info'>Swipe horizontally to view all columns</div><table>
    <thead>
      <tr>
        <th>#</th>
        <th>Name</th>
        <th style='text-align: right;'>".

(** [generateStatsTable]: the opening, after the value label *)
Definition statsTableHead2 : string := lit
"</th>
      </tr>
    </thead>
    <tbody>".

(** [generateStatsTable]: the format of a row *)
Definition statsRowFormat : string := lit
"
        <tr>
          <td>%d</td>
          <td>%s</td>
          <td style='text-align: right;'>%d</td>
        </tr>".

(** [generateUpstreamsTable]: the opening, up to the value label *)
Definition upstreamsTableHead1 : string := lit
"<div class='table-container'><div class='mobile-table-info'>Swipe horizontally to view all columns</div><table>
    <thead>
      <tr>
        <th>#</th>
        <th>Upstream</th>
        <th style='text-align: right;'>".

(** [generateUpstreamsTable]: the opening, after the value label *)
Definition upstreamsTableHead2 : string := lit
"</th>
      </tr>
    </thead>
    <tbody>".

(** [generateUpstreamsTable]: the format of a row *)
Definition upstreamsRowFormat : string := lit
"
        <tr>
          <td>%d</td>
          <td>%s</td>
          <td style='text-align: right;'>%.6f</td>
        </tr>".

(** [generateHomeContent]: the page *)
Definition homeContent : string := lit
"<h1>Welcome to Aghamon</h1>
<p>Monitor your DNS queries, clients, and upstream performance in real-time.</p>

<div style='display: grid; grid-template-columns: repeat(auto-fit, minmax(250px, 1fr)); gap: 20px; margin-top: 30px;'>
    <div style='background: #e8f4fd; padding: 20px; border-radius: 5px; text-align: center;'>
        <h3>📱 Clients</h3>
        <p>View connected DNS clients and their information</p>
        <a href='/clients' style='display: inline-block; background: #3498db; color: white; padding: 10px 20px; text-decoration: none; border-radius: 3px;'>View Clients</a>
    </div>
    
    <div style='background: #e8f6f3; padding: 20px; border-radius: 5px; text-align: center;'>
        <h3>📊 Statistics</h3>
        <p>DNS query statistics and blocked domains</p>
        <a href='/stats' style='display: inline-block; background: #27ae60; color: white; padding: 10px 20px; text-decoration: none; border-radius: 3px;'>View Stats</a>
    </div>
    
    <div style='background: #fef9e7; padding: 20px; border-radius: 5px; text-align: center;'>
        <h3>🌐 Upstreams</h3>
        <p>DNS upstream performance and response times</p>
        <a href='/upstreams' style='display: inline-block; background: #f39c12; color: white; padding: 10px 20px; text-decoration: none; border-radius: 3px;'>View Upstreams</a>
    </div>
</div>".

(** [generateClientsContent]: the format *)
Definition clientsContentFormat : string := lit
"<div class='header-section'>
    <h1>DNS Clients</h1>
    <p>Total clients: %d</p>
</div>
%s".

(** [generateStatsContent]: the format *)
Definition statsContentFormat : string := lit
"<div class='header-section'>
    <h1>DNS Statistics</h1>
</div>

<div class='summary'>
    <p><strong>Time Period:</strong> Last 24 %s</p>
    <p><strong>Total DNS Queries:</strong> %d</p>
    <p><strong>Total Blocked Queries:</strong> %d</p>
    <p><strong>Average Processing Time:</strong> %.6f seconds</p>
</div>

%s
%s
%s".

(** [generateUpstreamsContent]: the format *)
Definition upstreamsContentFormat : string := lit
"<div class='header-section'>
    <h1>DNS Upstreams</h1>
</div>

%s
%s".

(** *** The view renderer: the functions *)

Import Fmt.

(** A [strings.Builder] is its text so far: [WriteString] appends to
    it, [String()] returns it. *)
Definition WriteString (sb s : string) : string := sb +:+ s.

(** [for i, x := range l { body }] over a slice, [st] being the
    variables the body assigns. *)
Fixpoint range_from {A St : Type} (i : nat) (l : list A)
    (body : nat → A → St → St) (st : St) : St :=
  match l with
  | [] => st
  | x :: l' => range_from (S i) l' body (body i x st)
  end.

Definition range_slice {A St : Type} (l : list A)
    (body : nat → A → St → St) (st : St) : St :=
  range_from 0 l body st.

(** The entry a [range] over the map [m] visits first.  Go leaves the
    order unspecified: [start] is the runtime's choice for this loop. *)
Definition first_entry {V : Type} (start : nat) (m : gmap string V)
    : option (string * V) :=
  map_to_list m !! (start mod length (map_to_list m))%nat.

(** [for key, value := range m { body; break }]: the body runs once, on
    the first entry visited, and not at all on an empty map. *)
Definition range_map_break {V St : Type} (start : nat) (m : gmap string V)
    (body : string → V → St → St) (st : St) : St :=
  match first_entry start m with
  | Some (key, value) => body key value st
  | None => st
  end.

(** The row [generateHTMLTable] writes for one client. *)
Definition clientRow (client : Client) : string :=
  Sprintf clientRowFormat
    [ArgString (IP client);
     ArgString (Name client);
     ArgString (Source client);
     ArgString (Country (WhoisInfo client));
     ArgString (OrgName (WhoisInfo client));
     ArgString (City (WhoisInfo client))].

(** [generateHTMLTable] generates an HTML table from the clients data. *)
Definition generateHTMLTable (clients : list Client) : string :=
  let sb := EmptyString in
  let sb := WriteString sb clientsTableHead in
  let sb :=
    range_slice clients (λ _ client sb,
      WriteString sb (clientRow client)) sb in
  let sb := WriteString sb tableFoot in
  sb.

(** The row [generateStatsTable] writes: index, key and value. *)
Definition statsRow (index : Z) (key : string) (value : Z) : string :=
  Sprintf statsRowFormat [ArgInt index; ArgString key; ArgInt value].

(** The row [generateUpstreamsTable] writes: index, key and value. *)
Definition upstreamsRow (index : Z) (key : string) (value : float) : string :=
  Sprintf upstreamsRowFormat [ArgInt index; ArgString key; ArgFloat value].

(** [generateStatsTable] generates an HTML table for stats data.
    [start i] is where the runtime starts the iteration over item [i]. *)
Definition generateStatsTable (start : nat → nat) (title : string)
    (data : list (gmap string Z)) (valueLabel : string) : string :=
  let sb := EmptyString in
  let sb := WriteString sb (Sprintf titleFormat [ArgString title]) in
  let sb := WriteString sb
              (statsTableHead1 +:+ valueLabel +:+ statsTableHead2) in
  let sb :=
    range_slice data (λ i item sb,
      range_map_break (start i) item (λ key value sb,
        WriteString sb (statsRow (Z.of_nat i + 1) key value)) sb) sb in
  let sb := WriteString sb tableFoot in
  sb.

(** [generateUpstreamsTable] generates an HTML table for upstreams data. *)
Definition generateUpstreamsTable (start : nat → nat) (title : string)
    (data : list (gmap string float)) (valueLabel : string) : string :=
  let sb := EmptyString in
  let sb := WriteString sb (Sprintf titleFormat [ArgString title]) in
  let sb := WriteString sb
              (upstreamsTableHead1 +:+ valueLabel +:+ upstreamsTableHead2) in
  let sb :=
    range_slice data (λ i item sb,
      range_map_break (start i) item (λ key value sb,
        WriteString sb (upstreamsRow (Z.of_nat i + 1) key value)) sb) sb in
  let sb := WriteString sb tableFoot in
  sb.

(** [generateHomeContent] generates the home page content. *)
Definition generateHomeContent : string := homeContent.

(** [generateClientsContent] generates the clients page content. *)
Definition generateClientsContent (totalClients : Z) (clientsTable : string)
    : string :=
  Sprintf clientsContentFormat [ArgInt totalClients; ArgString clientsTable].

(** [generateStatsContent] generates the stats page content. *)
Definition generateStatsContent (timeUnits : string)
    (numDNSQueries numBlockedFiltering : Z) (avgProcessingTime : float)
    (topDomainsTable topClientsTable topBlockedTable : string) : string :=
  Sprintf statsContentFormat
    [ArgString timeUnits; ArgInt numDNSQueries; ArgInt numBlockedFiltering;
     ArgFloat avgProcessingTime; ArgString topDomainsTable;
     ArgString topClientsTable; ArgString topBlockedTable].

(** [generateUpstreamsContent] generates the upstreams page content. *)
Definition generateUpstreamsContent
    (topUpstreamsTable topUpstreamsTimeTable : string) : string :=
  Sprintf upstreamsContentFormat
    [ArgString topUpstreamsTable; ArgString topUpstreamsTimeTable].

(** The operands (index, key, value) of the rows the loop of
    [generateStatsTable] and [generateUpstreamsTable] writes, in the
    order it writes them: the same loop, collecting instead of writing. *)
Definition collect_row {V : Type} (start : nat → nat) (i : nat)
    (item : gmap string V) (rows : list (Z * string * V))
    : list (Z * string * V) :=
  range_map_break (start i) item (λ key value rows,
    rows ++ [(Z.of_nat i + 1, key, value)]) rows.

Definition ranked_rows {V : Type} (start : nat → nat)
    (data : list (gmap string V)) : list (Z * string * V) :=
  range_slice data (collect_row start) [].


(** *** The static asset server *)

(** [fs.ReadFile(name)] on an embedded file system. *)
Definition ReadFile (env : Env) (fs : EmbedFS) (name : string)
    : IO (result string) :=
  call (EvReadFile fs name) (embedded env fs name).

(** [serveStaticFile] serves embedded static files; [file] is
    [c.Param(file)]. *)
Definition serveStaticFile (env : Env) (file : string) : IO Response :=
  let path := file in
  let path := if decide (path = EmptyString) then "index.html" else path in
  (* Security: only serve files from the assets directory *)
  if Contains path ".." then
    ret (String_ StatusForbidden "Forbidden")
  else
    data <- ReadFile env assetFS ("assets/" +:+ path) ;;
    match data with
    | Err _ => ret (String_ StatusNotFound "File not found")
    | Ok data =>
        (* Set the content type from the file extension *)
        let contentType := "application/octet-stream" in
        let contentType :=
          if HasSuffix path ".png" then "image/png"
          else if HasSuffix path ".jpg" || HasSuffix path ".jpeg" then
            "image/jpeg"
          else if HasSuffix path ".css" then "text/css"
          else if HasSuffix path ".js" then "application/javascript"
          else contentType in
        ret (Blob StatusOK contentType data)
    end.

(** *** The handlers registered by [main] *)

(** [GET /] *)
Definition homeHandler : IO Response :=
  ret (Render StatusOK "base.html" "Aghamon" generateHomeContent).

(** [GET /clients] *)
Definition clientsHandler (env : Env) (config : Config) : IO Response :=
  (* Fetch clients from AdGuard Home *)
  r <- fetchClients env config ;;
  match r with
  | Err err =>
      ret (String_ StatusInternalServerError
             (Sprintf "Error fetching clients: %v" [ArgError err]))
  | Ok clientsResponse =>
      (* Combine both clients and auto_clients *)
      let allClients := [] in
      let allClients := allClients ++ Clients clientsResponse in
      let allClients := allClients ++ AutoClients clientsResponse in
      (* Generate HTML table *)
      let htmlTable := generateHTMLTable allClients in
      ret (Render StatusOK "base.html" "DNS Clients - Aghamon"
             (generateClientsContent (Z.of_nat (length allClients))
                htmlTable))
  end.

(** [GET /stats]; the tables rendered by the handlers are numbered for
    [map_start]. *)
Definition statsHandler (env : Env) (config : Config) : IO Response :=
  (* Fetch stats from AdGuard Home *)
  r <- fetchStats env config ;;
  match r with
  | Err err =>
      ret (String_ StatusInternalServerError
             (Sprintf "Error fetching stats: %v" [ArgError err]))
  | Ok statsResponse =>
      (* Generate HTML tables for each section *)
      let topDomainsTable :=
        generateStatsTable (map_start env 0) "Top Queried Domains"
          (TopQueriedDomains statsResponse) "Count" in
      let topClientsTable :=
        generateStatsTable (map_start env 1) "Top Clients"
          (TopClients statsResponse) "Count" in
      let topBlockedTable :=
        generateStatsTable (map_start env 2) "Top Blocked Domains"
          (TopBlockedDomains statsResponse) "Count" in
      ret (Render StatusOK "base.html" "DNS Statistics - Aghamon"
             (generateStatsContent
                (TimeUnits statsResponse)
                (NumDNSQueries statsResponse)
                (NumBlockedFiltering statsResponse)
                (AvgProcessingTime statsResponse)
                topDomainsTable
                topClientsTable
                topBlockedTable))
  end.

(** [GET /upstreams] *)
Definition upstreamsHandler (env : Env) (config : Config) : IO Response :=
  (* Fetch stats from AdGuard Home *)
  r <- fetchStats env config ;;
  match r with
  | Err err =>
      ret (String_ StatusInternalServerError
             (Sprintf "Error fetching upstreams: %v" [ArgError err]))
  | Ok statsResponse =>
      (* Generate HTML tables for upstreams *)
      let topUpstreamsTable :=
        generateStatsTable (map_start env 3)
          "Top Upstreams by Response Count"
          (TopUpstreamsResponses statsResponse) "Count" in
      let topUpstreamsTimeTable :=
        generateUpstreamsTable (map_start env 4)
          "Top Upstreams by Average Response Time"
          (TopUpstreamsAvgTime statsResponse) "Time" in
      ret (Render StatusOK "base.html" "DNS Upstreams - Aghamon"
             (generateUpstreamsContent topUpstreamsTable
                topUpstreamsTimeTable))
  end.

(** *** [main] *)

(** How the start of the process ends. *)
Inductive Startup :=
| Fatal (message : string) (err : error)   (* e.Logger.Fatal: exit status 1 *)
| Panic (err : error)                      (* template.Must *)
| Serving (address : string) (config : Config) (* e.Start: the routes are up *)
| Stopped (err : error).    (* e.Logger.Fatal(e.Start(...)): exit status 1 *)

(** [main]. *)
Definition main (env : Env) : IO Startup :=
  (* Load configuration *)
  r <- loadConfig env ;;
  match r with
  | Err err => ret (Fatal "Failed to load config:" err)
  | Ok config =>
      (* Parse embedded templates *)
      t <- ReadFile env templateFS "templates/base.html" ;;
      match t with
      | Err err => ret (Fatal "Failed to read embedded template:" err)
      | Ok templateContent =>
          match template_Parse env templateContent with
          | Some err => ret (Panic err)
          | None =>
              started <- call (EvStart ":8080") (echo_Start env ":8080") ;;
              match started with
              | Some err => ret (Stopped err)
              | None => ret (Serving ":8080" config)
              end
          end
      end
  end.

End Aghamon.

(** ** The words of the specification, for comparison with the code *)

Module Spec.

(** Section 4.5: the fixed mapping from file extension to content type. *)
Definition extension_types : list (string * string) :=
  [(".png", "image/png");
   (".jpg", "image/jpeg");
   (".jpeg", "image/jpeg");
   (".css", "text/css");
   (".js", "application/javascript")].

(** The content type of a file name: that of the first extension of the
    mapping the name ends with, else [application/octet-stream]. *)
Definition content_type_of (name : string) : string :=
  match find (λ et, GoStrings.HasSuffix name et.1) extension_types with
  | Some et => et.2
  | None => "application/octet-stream"
  end.

(** What is left of the fetch once the client has returned: the body
    is read and decoded. *)
Definition answer_of {A : Type} (decode : string → result A)
    (sent : result Aghamon.HTTPResponse) : result A :=
  match sent with
  | Err err => Err err
  | Ok resp =>
      match Aghamon.Body resp with
      | Err err => Err err
      | Ok body => decode body
      end
  end.

(** The text of a sequence of rows written one after the other. *)
Definition rows_text (rows : list string) : string :=
  foldr String.append EmptyString rows.

(** The text of a ranked table whose rows have the given operands. *)
Definition ranked_table_text {V : Type} (head1 head2 : string)
    (row : Z → string → V → string) (title valueLabel : string)
    (rows : list (Z * string * V)) : string :=
  Fmt.Sprintf Aghamon.titleFormat [Fmt.ArgString title]
  +:+ (head1 +:+ valueLabel +:+ head2)
  +:+ rows_text ((λ r, row r.1.1 r.1.2 r.2) <$> rows)
  +:+ Aghamon.tableFoot.



(** Section 4.2: the request to the appliance, a GET to
    [{server_url}/control/{endpoint}] with the three headers. *)
Definition api_request (config : Aghamon.Config) (endpoint : string)
    : Aghamon.Request :=
  let server_url := Aghamon.ServerURL (Aghamon.AdGuard config) in
  let username := Aghamon.Username (Aghamon.AdGuard config) in
  let password := Aghamon.Password (Aghamon.AdGuard config) in
  {| Aghamon.Method := "GET";
     Aghamon.URL := server_url +:+ "/control/" +:+ endpoint;
     Aghamon.Header :=
       {[ "Authorization" :=
            ["Basic " +:+ Base64.EncodeToString (username +:+ ":" +:+ password)];
          "Accept" := ["application/json"];
          "Referer" := [server_url +:+ "/"] ]} |}.

(** Section 6: the config file.  Its keys are [server_url], [username]
    and [password] under [adguard]. *)
Definition config_keys : list string := ["server_url"; "username"; "password"].

Definition is_scalar (n : Yaml.Node) : bool :=
  match n with
  | Yaml.ScalarNode _ _ => true
  | _ => false
  end.

(** The keys of a mapping are plain: no key occurs twice and none is
    the merge key. *)
Definition plain_keys (content : list (string * Yaml.Node)) : bool :=
  bool_decide (NoDup content.*1) && bool_decide ("<<" ∉ content.*1).

(** The value of [adguard] has the structure of the grammar: a mapping
    with plain keys in which the three keys, where they occur, hold
    scalars; or nothing (a null). *)
Definition well_formed_adguard (n : Yaml.Node) : bool :=
  match n with
  | Yaml.MappingNode fields =>
      plain_keys fields
      && forallb (λ kv : string * Yaml.Node,
                    if bool_decide (kv.1 ∈ config_keys) then is_scalar kv.2
                    else true) fields
  | Yaml.ScalarNode true _ => true
  | _ => false
  end.

(** The document has the structure of the grammar: a mapping with plain
    keys whose [adguard], where it occurs, is well formed. *)
Definition well_formed_config (document : Yaml.Node) : bool :=
  match document with
  | Yaml.MappingNode top =>
      plain_keys top
      && forallb (λ kv : string * Yaml.Node,
                    if bool_decide (kv.1 = "adguard") then
                      well_formed_adguard kv.2
                    else true) top
  | _ => false
  end.

(** The value under a key of a mapping. *)
Fixpoint entry (key : string) (content : list (string * Yaml.Node))
    : option Yaml.Node :=
  match content with
  | [] => None
  | kv :: rest => if decide (kv.1 = key) then Some kv.2 else entry key rest
  end.

(** The text of a key: that of its scalar, and [default] when the key is
    omitted or null. *)
Definition field_text (default key : string)
    (fields : list (string * Yaml.Node)) : string :=
  match entry key fields with
  | Some (Yaml.ScalarNode false text) => text
  | _ => default
  end.

(** The pairs under [adguard]. *)
Definition adguard_fields (document : Yaml.Node) : list (string * Yaml.Node) :=
  match document with
  | Yaml.MappingNode top =>
      match entry "adguard" top with
      | Some (Yaml.MappingNode fields) => fields
      | _ => []
      end
  | _ => []
  end.

(** The document does not mention the key. *)
Definition omits (key : string) (document : Yaml.Node) : Prop :=
  entry key (adguard_fields document) = None.

(** The configuration a document describes, an omitted key giving the
    empty string. *)
Definition config_of (document : Yaml.Node) : Aghamon.Config :=
  let fields := adguard_fields document in
  {| Aghamon.AdGuard :=
       {| Aghamon.ServerURL := field_text EmptyString "server_url" fields;
          Aghamon.Username := field_text EmptyString "username" fields;
          Aghamon.Password := field_text EmptyString "password" fields |} |}.

End Spec.

(** ** Concrete environments *)

Module Samples.

Import Aghamon.

(** A machine with no file, no asset and no network: every call out of
    the process fails.  The other samples change it field by field. *)
Definition offline : Env :=
  {| environ := ∅;
     files := λ _, Err "open config.yaml: no such file or directory";
     embedded := λ _ _, Err "file does not exist";
     yaml_parse := λ _, Ok None;
     template_Parse := λ _, None;
     yaml_merge_AdGuard := λ _ _,
       Err "yaml: map merge requires map or sequence of maps as the value";
     yaml_merge_Config := λ _ _,
       Err "yaml: map merge requires map or sequence of maps as the value";
     yaml_TypeError := λ _, "yaml: unmarshal errors";
     url_syntax := λ _, None;
     strconv_Quote := λ s, String "034" s +:+ String "034" EmptyString;
     roundTrip := λ _, Err "dial tcp 10.0.0.1:443: connect: connection refused";
     json_Unmarshal_clients := λ _, Err "unexpected end of JSON input";
     json_Unmarshal_stats := λ _, Err "unexpected end of JSON input";
     map_start := λ _ _, 0%nat;
     echo_Start := λ _, None |}.

(** [offline] with the embedded files given by [fs]. *)
Definition with_embedded (fs : EmbedFS → string → result string) (env : Env)
    : Env :=
  {| environ := environ env; files := files env; embedded := fs;
     yaml_parse := yaml_parse env; template_Parse := template_Parse env;
     yaml_merge_AdGuard := yaml_merge_AdGuard env;
     yaml_merge_Config := yaml_merge_Config env;
     yaml_TypeError := yaml_TypeError env;
     url_syntax := url_syntax env;
     strconv_Quote := strconv_Quote env; roundTrip := roundTrip env;
     json_Unmarshal_clients := json_Unmarshal_clients env;
     json_Unmarshal_stats := json_Unmarshal_stats env;
     map_start := map_start env;
     echo_Start := echo_Start env |}.

(** The embedded files of the repository: the logo and the page shell
    (their contents stand for the real ones). *)
Definition repository_files (fs : EmbedFS) (name : string) : result string :=
  match fs with
  | assetFS =>
      if decide (name = "assets/logo_small.png") then Ok "PNG logo"
      else Err "file does not exist"
  | templateFS =>
      if decide (name = "templates/base.html") then Ok "<html>{{.Content}}</html>"
      else Err "file does not exist"
  end.

(** An asset store that has a file under every name. *)
Definition every_file (fs : EmbedFS) (name : string) : result string :=
  Ok "secret".

(** [env] with the network and the JSON decoders replaced. *)
Definition with_appliance (net : Request → result HTTPResponse)
    (clients : string → result ClientsResponse)
    (stats : string → result StatsResponse) (env : Env) : Env :=
  {| environ := environ env; files := files env; embedded := embedded env;
     yaml_parse := yaml_parse env; template_Parse := template_Parse env;
     yaml_merge_AdGuard := yaml_merge_AdGuard env;
     yaml_merge_Config := yaml_merge_Config env;
     yaml_TypeError := yaml_TypeError env;
     url_syntax := url_syntax env;
     strconv_Quote := strconv_Quote env; roundTrip := net;
     json_Unmarshal_clients := clients;
     json_Unmarshal_stats := stats;
     map_start := map_start env;
     echo_Start := echo_Start env |}.

(** The configuration of the example scenarios of the specification. *)
Definition example_config : Config :=
  {| AdGuard := {| ServerURL := "https://dns.example.com";
                   Username := "a"; Password := "b" |} |}.

(** A configuration whose server URL ends with a line feed. *)
Definition newline_config : Config :=
  {| AdGuard := {| ServerURL := "https://dns.example.com" +:+ String "010" EmptyString;
                   Username := "a"; Password := "b" |} |}.

(** The client of the example scenario. *)
Definition laptop : Client :=
  {| IP := "10.0.0.5"; Name := "laptop"; Source := "rdns";
     WhoisInfo := {| Country := "US"; OrgName := "ISP"; City := "NYC" |} |}.

(** A client found automatically by the appliance. *)
Definition printer : Client :=
  {| IP := "10.0.0.9"; Name := "printer"; Source := "arp";
     WhoisInfo := {| Country := EmptyString; OrgName := EmptyString;
                     City := EmptyString |} |}.

(** An appliance that answers every request with a body the decoders
    read as one configured client and two automatic ones, one of them
    the same machine again. *)
Definition answering : Env :=
  with_appliance
    (λ _, Ok {| Body := Ok "{...}" |})
    (λ _, Ok {| Clients := [laptop]; AutoClients := [printer; laptop];
                SupportedTags := [] |})
    (λ _, Err "json: cannot unmarshal")
    offline.

(** An appliance whose answer is not JSON. *)
Definition garbled : Env :=
  with_appliance
    (λ _, Ok {| Body := Ok "<html>502 Bad Gateway</html>" |})
    (λ _, Err "invalid character '<' looking for beginning of value")
    (λ _, Err "invalid character '<' looking for beginning of value")
    offline.

(** Ranked lists as the stats API may send them: one with an empty
    item, one with an item of two keys. *)
Definition ranking_with_gap : list (gmap string Z) :=
  [∅; {[ "a" := 1 ]}].

Definition ranking_two_keys : list (gmap string Z) :=
  [{[ "a" := 1; "b" := 2 ]}].

(** The ranked list of the example scenario, and its upstream times. *)
Definition ranking_example : list (gmap string Z) :=
  [{[ "example.com" := 42 ]}; {[ "example.org" := 7 ]}].

Definition times_example : list (gmap string float) :=
  [{[ "1.1.1.1:53" := 0.0625%float ]}].

(** [env] with other environment variables. *)
Definition with_environ (vars : gmap string string) (env : Env) : Env :=
  {| environ := vars; files := files env; embedded := embedded env;
     yaml_parse := yaml_parse env; template_Parse := template_Parse env;
     yaml_merge_AdGuard := yaml_merge_AdGuard env;
     yaml_merge_Config := yaml_merge_Config env;
     yaml_TypeError := yaml_TypeError env;
     url_syntax := url_syntax env;
     strconv_Quote := strconv_Quote env; roundTrip := roundTrip env;
     json_Unmarshal_clients := json_Unmarshal_clients env;
     json_Unmarshal_stats := json_Unmarshal_stats env;
     map_start := map_start env;
     echo_Start := echo_Start env |}.

(** [env] with one file [name] in the working directory, whose text the
    yaml parser reads as [document]. *)
Definition with_file (name text : string) (document : option Yaml.Node)
    (env : Env) : Env :=
  {| environ := environ env;
     files := λ n, if decide (n = name) then Ok text else files env n;
     embedded := embedded env;
     yaml_parse := λ t, if decide (t = text) then Ok document
                        else yaml_parse env t;
     template_Parse := template_Parse env;
     yaml_merge_AdGuard := yaml_merge_AdGuard env;
     yaml_merge_Config := yaml_merge_Config env;
     yaml_TypeError := yaml_TypeError env;
     url_syntax := url_syntax env;
     strconv_Quote := strconv_Quote env; roundTrip := roundTrip env;
     json_Unmarshal_clients := json_Unmarshal_clients env;
     json_Unmarshal_stats := json_Unmarshal_stats env;
     map_start := map_start env;
     echo_Start := echo_Start env |}.

(** The config file of the example scenario, as a document. *)
Definition example_document : Yaml.Node :=
  Yaml.MappingNode
    [("adguard",
      Yaml.MappingNode
        [("server_url", Yaml.ScalarNode false "https://dns.example.com");
         ("username", Yaml.ScalarNode false "a");
         ("password", Yaml.ScalarNode false "b")])].

(** A config file with the URL only: [username] and [password] are
    omitted. *)
Definition url_only_document : Yaml.Node :=
  Yaml.MappingNode
    [("adguard",
      Yaml.MappingNode
        [("server_url", Yaml.ScalarNode false "https://dns.example.com")])].

(** A machine with the embedded files of the repository and a config
    file in the working directory. *)
Definition installed (document : Yaml.Node) : Env :=
  with_file "config.yaml" "adguard: ..." (Some document)
    (with_embedded repository_files offline).

(** The environment variables of the README, set. *)
Definition readme_variables : gmap string string :=
  {[ "PORT" := "9090"; "CONFIG_PATH" := "/etc/aghamon/config.yaml" ]}.

End Samples.

(** ** What a response and a trace show *)

Module Observe.

Import Aghamon.

(** The HTTP status of a response. *)
Definition code_of (r : Response) : Z :=
  match r with
  | String_ code _ => code
  | Blob code _ _ => code
  | Render code _ _ _ => code
  end.

(** The bytes of a string, as a list. *)
Fixpoint bytes (s : string) : list ascii :=
  match s with
  | EmptyString => []
  | String b s' => b :: bytes s'
  end.

(** A character of the base64 encoding: one of the alphabet, or the
    padding. *)
Definition base64_char (c : ascii) : Prop :=
  c ∈ bytes Base64.encodeStd ∨ c = Base64.StdPadding.

(** A table cell with the given text, and the line feed. *)
Definition cell (text : string) : string := "<td>" +:+ text +:+ "</td>".

Definition nl : string := String "010" EmptyString.



(** The items of a ranked list that have an entry. *)
Definition with_entry {V : Type} (data : list (gmap string V))
    : list (gmap string V) :=
  filter (λ item : gmap string V, item ≠ ∅) data.

(** The rows as a page shows them, cell by cell: the row of a client
    with its six fields, the row of a ranked table with the index, the
    name and the value. *)
Definition client_row (client : Client) : string :=
  nl +:+ "      <tr>"
  +:+ nl +:+ "        " +:+ cell (IP client)
  +:+ nl +:+ "        " +:+ cell (Name client)
  +:+ nl +:+ "        " +:+ cell (Source client)
  +:+ nl +:+ "        " +:+ cell (Country (WhoisInfo client))
  +:+ nl +:+ "        " +:+ cell (OrgName (WhoisInfo client))
  +:+ nl +:+ "        " +:+ cell (City (WhoisInfo client))
  +:+ nl +:+ "      </tr>".




(** The number of places of [s] where [sub] stands. *)
Fixpoint occurrences (s sub : string) : nat :=
  match s with
  | EmptyString => 0
  | String _ s' =>
      ((if GoStrings.HasPrefix s sub then 1 else 0) + occurrences s' sub)%nat
  end.

(** The rows of a piece of HTML: the places where a [<tr>] opens. *)
Definition rows_opened (html : string) : nat := occurrences html "<tr>".

(** A field without markup: it holds no [<]. *)
Definition plain (text : string) : Prop :=
  GoStrings.Contains text "<" = false.

Definition plain_client (client : Client) : Prop :=
  plain (IP client) ∧ plain (Name client) ∧ plain (Source client)
  ∧ plain (Country (WhoisInfo client)) ∧ plain (OrgName (WhoisInfo client))
  ∧ plain (City (WhoisInfo client)).



End Observe.

(** ** More concrete cases *)

Module Cases.

Import Aghamon.

(** A client whose name, as reported by the appliance, is markup. *)
Definition intruder : Client :=
  {| IP := "10.0.0.66"; Name := "<script>alert(1)</script>"; Source := "rdns";
     WhoisInfo := {| Country := EmptyString; OrgName := EmptyString;
                     City := EmptyString |} |}.

(** A client whose name closes its cell and its row and opens another
    row. *)
Definition wrapped : Client :=
  {| IP := "10.0.0.7"; Name := "tv</td></tr><tr><td>10.0.0.8";
     Source := "rdns";
     WhoisInfo := {| Country := EmptyString; OrgName := EmptyString;
                     City := EmptyString |} |}.

(** A machine on which [config.yaml] holds no document: it is empty, or
    holds comments only. *)
Definition blank_config : Env :=
  Samples.with_file "config.yaml" "# settings to come" None
    (Samples.with_embedded Samples.repository_files Samples.offline).

(** [env] on which listening fails. *)
Definition with_listener (answer : string → option error) (env : Env) : Env :=
  {| environ := environ env; files := files env; embedded := embedded env;
     yaml_parse := yaml_parse env; template_Parse := template_Parse env;
     yaml_merge_AdGuard := yaml_merge_AdGuard env;
     yaml_merge_Config := yaml_merge_Config env;
     yaml_TypeError := yaml_TypeError env;
     url_syntax := url_syntax env;
     strconv_Quote := strconv_Quote env; roundTrip := roundTrip env;
     json_Unmarshal_clients := json_Unmarshal_clients env;
     json_Unmarshal_stats := json_Unmarshal_stats env;
     map_start := map_start env;
     echo_Start := answer |}.

(** A machine on which the port is taken. *)
Definition port_taken : Env :=
  with_listener
    (λ _, Some "listen tcp :8080: bind: address already in use")
    (Samples.installed Samples.example_document).

(** The statistics of a quiet day. *)
Definition quiet_day : StatsResponse :=
  {| TimeUnits := "hours";
     TopQueriedDomains := Samples.ranking_example;
     TopClients := Samples.ranking_with_gap;
     TopBlockedDomains := [];
     TopUpstreamsResponses := Samples.ranking_two_keys;
     TopUpstreamsAvgTime := Samples.times_example;
     DNSQueries := [40; 9];
     BlockedFiltering := [0; 3];
     NumDNSQueries := 49;
     NumBlockedFiltering := 3;
     AvgProcessingTime := 0.0625%float |}.

(** An appliance whose statistics are those of [quiet_day]. *)
Definition measured : Env :=
  Samples.with_appliance
    (λ _, Ok {| Body := Ok "{...}" |})
    (λ _, Err "json: cannot unmarshal")
    (λ _, Ok quiet_day)
    Samples.offline.

End Cases.

(** ** Facts about the string functions *)

Section string_facts.

Import GoStrings.

Lemma str_app_cons (c : ascii) (s t : string) :
  String c s +:+ t = String c (s +:+ t).
Proof. reflexivity. Qed.

Lemma str_app_nil_l (t : string) : EmptyString +:+ t = t.
Proof. reflexivity. Qed.

Lemma str_app_nil_r (s : string) : s +:+ EmptyString = s.
Proof. induction s as [|c s IH]; [done|]. by rewrite str_app_cons, IH. Qed.

Lemma str_app_assoc (s t u : string) : (s +:+ t) +:+ u = s +:+ (t +:+ u).
Proof.
  induction s as [|c s IH]; [done|]. by rewrite !str_app_cons, IH.
Qed.

Lemma str_length_app (s t : string) :
  String.length (s +:+ t) = (String.length s + String.length t)%nat.
Proof.
  induction s as [|c s IH]; [done|]. rewrite str_app_cons. simpl. by rewrite IH.
Qed.

Lemma HasPrefix_app (p t : string) : HasPrefix (p +:+ t) p = true.
Proof.
  induction p as [|c p IH]; [done|].
  rewrite str_app_cons. simpl. by rewrite decide_True.
Qed.

Lemma HasPrefix_inv (s p : string) :
  HasPrefix s p = true → ∃ t, s = p +:+ t.
Proof.
  revert s. induction p as [|c p IH]; intros s H.
  - by exists s.
  - destruct s as [|d s]; [done|]. simpl in H.
    destruct (decide (c = d)) as [->|]; [|done].
    destruct (IH _ H) as [t ->]. by exists t.
Qed.

Lemma HasPrefix_spec (s p : string) :
  HasPrefix s p = true ↔ ∃ t, s = p +:+ t.
Proof.
  split; [apply HasPrefix_inv|]. intros [t ->]. apply HasPrefix_app.
Qed.

Lemma Index_lower (s sub : string) : -1 ≤ Index s sub.
Proof.
  induction s as [|c s IH]; simpl.
  - destruct (HasPrefix _ _); lia.
  - destruct (HasPrefix _ _); [lia|].
    destruct (Z.ltb_spec (Index s sub) 0); lia.
Qed.

Lemma Index_occurrence (a sub b : string) : 0 ≤ Index (a +:+ sub +:+ b) sub.
Proof.
  induction a as [|c a IH].
  - rewrite str_app_nil_l.
    destruct (sub +:+ b) as [|d r] eqn:E; simpl.
    + pose proof (HasPrefix_app sub b) as H. rewrite E in H.
      simpl in H. by rewrite H.
    + pose proof (HasPrefix_app sub b) as H. rewrite E in H.
      by rewrite H.
  - rewrite str_app_cons. simpl.
    destruct (HasPrefix _ _); [lia|].
    destruct (Z.ltb_spec (Index (a +:+ sub +:+ b) sub) 0); lia.
Qed.

Lemma Index_found (s sub : string) :
  0 ≤ Index s sub → ∃ a b, s = a +:+ sub +:+ b.
Proof.
  induction s as [|c s IH]; simpl.
  - destruct (HasPrefix EmptyString sub) eqn:E; [|lia].
    intros _. apply HasPrefix_inv in E as [t E].
    exists EmptyString, t. by rewrite str_app_nil_l.
  - destruct (HasPrefix (String c s) sub) eqn:E.
    + intros _. apply HasPrefix_inv in E as [t E].
      exists EmptyString, t. by rewrite str_app_nil_l.
    + destruct (Z.ltb_spec (Index s sub) 0) as [|Hge]; [lia|].
      intros _. destruct (IH Hge) as (a & b & ->).
      exists (String c a), b. by rewrite str_app_cons.
Qed.

(** [Contains] decides the occurrence of a substring. *)
Lemma Contains_spec (s sub : string) :
  Contains s sub = true ↔ ∃ a b, s = a +:+ sub +:+ b.
Proof.
  unfold Contains. rewrite Z.leb_le. split.
  - apply Index_found.
  - intros (a & b & ->). apply Index_occurrence.
Qed.

Lemma slice_from_app (a t : string) :
  slice_from (String.length a) (a +:+ t) = t.
Proof. induction a as [|c a IH]; [by destruct t|]. by rewrite str_app_cons. Qed.

Lemma slice_from_split (n : nat) (s : string) :
  (n ≤ String.length s)%nat →
  ∃ a, s = a +:+ slice_from n s ∧ String.length a = n.
Proof.
  revert s. induction n as [|n IH]; intros s Hn.
  - exists EmptyString. by destruct s.
  - destruct s as [|c s]; simpl in Hn; [lia|].
    destruct (IH s) as (a & Ha & Hl); [lia|].
    exists (String c a). simpl. rewrite str_app_cons. by rewrite <- Ha, Hl.
Qed.

(** [HasSuffix] decides that a string ends with the given suffix. *)
Lemma HasSuffix_spec (s suf : string) :
  HasSuffix s suf = true ↔ ∃ a, s = a +:+ suf.
Proof.
  unfold HasSuffix. rewrite andb_true_iff, Nat.leb_le, bool_decide_eq_true.
  split.
  - intros [Hle Heq].
    destruct (slice_from_split (String.length s - String.length suf) s)
      as (a & Ha & _); [lia|].
    exists a. by rewrite Heq in Ha.
  - intros [a ->]. rewrite str_length_app. split; [lia|].
    replace (String.length a + String.length suf - String.length suf)%nat
      with (String.length a) by lia.
    apply slice_from_app.
Qed.

End string_facts.

(** The test vectors of RFC 4648, section 10. *)
Example base64_rfc4648_vectors :
  Base64.EncodeToString EmptyString = EmptyString
  ∧ Base64.EncodeToString "f" = "Zg=="
  ∧ Base64.EncodeToString "fo" = "Zm8="
  ∧ Base64.EncodeToString "foo" = "Zm9v"
  ∧ Base64.EncodeToString "foob" = "Zm9vYg=="
  ∧ Base64.EncodeToString "fooba" = "Zm9vYmE="
  ∧ Base64.EncodeToString "foobar" = "Zm9vYmFy".
Proof. repeat split; reflexivity. Qed.

(** ** Base64: the encoding can be decoded *)

Section base64_facts.

Import Base64.

Lemma uint_range (b : ascii) : 0 ≤ uint b < 256.
Proof.
  unfold uint, byte_value. pose proof (N_ascii_bounded b) as H. lia.
Qed.

Lemma byte_uint (b : ascii) : byte (uint b) = b.
Proof.
  unfold byte. rewrite Z.mod_small by apply uint_range.
  unfold uint, byte_value. rewrite N2Z.id. apply ascii_N_embedding.
Qed.

Lemma lor_shiftl_add (x y n : Z) :
  0 ≤ n → 0 ≤ y < 2 ^ n → Z.lor (Z.shiftl x n) y = x * 2 ^ n + y.
Proof.
  intros Hn Hy. rewrite <- Z.shiftl_mul_pow2 by done.
  assert (Z.land (Z.shiftl x n) y = 0) as Hland.
  { apply Z.bits_inj'. intros m Hm. rewrite Z.land_spec, Z.bits_0.
    destruct (Z.ltb_spec m n).
    - by rewrite Z.shiftl_spec_low.
    - assert (Z.testbit y m = false) as ->; [|by rewrite andb_false_r].
      destruct (decide (y = 0)) as [->|]; [apply Z.bits_0|].
      apply Z.bits_above_log2; [lia|].
      assert (Z.log2 y < n) by (apply Z.log2_lt_pow2; lia). lia. }
  rewrite <- Z.lxor_lor by done. symmetry. by apply Z.add_nocarry_lxor.
Qed.

Lemma lor_add (x y n : Z) :
  0 ≤ n → x mod 2 ^ n = 0 → 0 ≤ y < 2 ^ n → Z.lor x y = x + y.
Proof.
  intros Hn Hx Hy.
  assert (∃ q, x = q * 2 ^ n) as [q ->].
  { exists (x / 2 ^ n). pose proof (Z.div_mod x (2 ^ n)) as H. lia. }
  rewrite <- (lor_shiftl_add q y n) by done.
  by rewrite Z.shiftl_mul_pow2.
Qed.

Lemma sextet_eq (val k : Z) :
  0 ≤ k → Z.land (Z.shiftr val k) 63 = (val / 2 ^ k) mod 64.
Proof.
  intros Hk. change 63 with (Z.ones 6).
  by rewrite Z.land_ones, Z.shiftr_div_pow2 by lia.
Qed.

Lemma alphabet_decode (i : Z) :
  0 ≤ i < 64 → decode (encode i) = Some i ∧ encode i ≠ StdPadding.
Proof.
  intros Hi.
  assert (forallb (λ i, bool_decide (decode (encode i) = Some i
                                     ∧ encode i ≠ StdPadding))
            (seqZ 0 64) = true) as Hall by (vm_compute; reflexivity).
  rewrite forallb_forall in Hall.
  eapply bool_decide_eq_true_1, Hall, list_elem_of_In, elem_of_seqZ. lia.
Qed.

(** The 24 bits of three bytes. *)
Lemma group_value (a b c : Z) :
  0 ≤ a < 256 → 0 ≤ b < 256 → 0 ≤ c < 256 →
  Z.lor (Z.lor (Z.shiftl a 16) (Z.shiftl b 8)) c = a * 65536 + b * 256 + c.
Proof.
  intros Ha Hb Hc. rewrite !Z.shiftl_mul_pow2 by lia.
  change (2 ^ 16) with 65536. change (2 ^ 8) with 256.
  rewrite (lor_add (a * 65536) (b * 256) 16); [|lia| |lia].
  - rewrite (lor_add _ c 8); [lia|lia| |lia].
    change (2 ^ 8) with 256. Z.div_mod_to_equations. lia.
  - change (2 ^ 16) with 65536. Z.div_mod_to_equations. lia.
Qed.

(** Four sextets put together again give the 24 bits. *)
Lemma sextets_value (val : Z) :
  0 ≤ val < 16777216 →
  Z.lor (Z.lor (Z.lor (Z.shiftl (Z.land (Z.shiftr val 18) 63) 18)
                      (Z.shiftl (Z.land (Z.shiftr val 12) 63) 12))
               (Z.shiftl (Z.land (Z.shiftr val 6) 63) 6))
        (Z.land val 63)
  = val.
Proof.
  intros Hval.
  replace (Z.land val 63) with (Z.land (Z.shiftr val 0) 63)
    by (by rewrite Z.shiftr_0_r).
  rewrite !sextet_eq, !Z.shiftl_mul_pow2 by lia.
  change (2 ^ 18) with 262144. change (2 ^ 12) with 4096.
  change (2 ^ 6) with 64. change (2 ^ 0) with 1.
  set (v0 := (val / 262144) mod 64). set (v1 := (val / 4096) mod 64).
  set (v2 := (val / 64) mod 64). set (v3 := (val / 1) mod 64).
  assert (0 ≤ v0 < 64 ∧ 0 ≤ v1 < 64 ∧ 0 ≤ v2 < 64 ∧ 0 ≤ v3 < 64
          ∧ v0 * 262144 + v1 * 4096 + v2 * 64 + v3 = val) as (H0 & H1 & H2 & H3 & Hsum).
  { subst v0 v1 v2 v3. Z.div_mod_to_equations. lia. }
  rewrite (lor_add (v0 * 262144) (v1 * 4096) 18); [|lia| |].
  - rewrite (lor_add (v0 * 262144 + v1 * 4096) (v2 * 64) 12); [|lia| |].
    + rewrite (lor_add (v0 * 262144 + v1 * 4096 + v2 * 64) v3 6); [done|lia| |].
      * change (2 ^ 6) with 64. clear Hsum. Z.div_mod_to_equations. lia.
      * change (2 ^ 6) with 64. lia.
    + change (2 ^ 12) with 4096. clear Hsum. Z.div_mod_to_equations. lia.
    + change (2 ^ 12) with 4096. lia.
  - change (2 ^ 18) with 262144. clear Hsum. Z.div_mod_to_equations. lia.
  - change (2 ^ 18) with 262144. lia.
Qed.

Lemma sextet_range (val k : Z) :
  0 ≤ k → 0 ≤ Z.land (Z.shiftr val k) 63 < 64.
Proof.
  intros Hk. rewrite sextet_eq by done. apply Z.mod_pos_bound. lia.
Qed.

Lemma bytes_of_value (a b c : Z) :
  0 ≤ a < 256 → 0 ≤ b < 256 → 0 ≤ c < 256 →
  let val := a * 65536 + b * 256 + c in
  Z.shiftr val 16 mod 256 = a ∧ Z.shiftr val 8 mod 256 = b ∧ val mod 256 = c.
Proof.
  intros Ha Hb Hc val. subst val. rewrite !Z.shiftr_div_pow2 by lia.
  change (2 ^ 16) with 65536. change (2 ^ 8) with 256.
  repeat split; Z.div_mod_to_equations; lia.
Qed.

Lemma byte_eq (z : Z) (b : ascii) : z mod 256 = uint b → byte z = b.
Proof.
  intros H. unfold byte. rewrite H. unfold uint, byte_value.
  rewrite N2Z.id. apply ascii_N_embedding.
Qed.

Lemma quantum_of_value (val : Z) :
  0 ≤ val < 16777216 →
  quantum (encode (Z.land (Z.shiftr val 18) 63))
          (encode (Z.land (Z.shiftr val 12) 63))
          (encode (Z.land (Z.shiftr val 6) 63))
          (encode (Z.land val 63))
  = Some val.
Proof.
  intros Hval. unfold quantum.
  destruct (alphabet_decode _ (sextet_range val 18 ltac:(lia))) as [-> _].
  destruct (alphabet_decode _ (sextet_range val 12 ltac:(lia))) as [-> _].
  destruct (alphabet_decode _ (sextet_range val 6 ltac:(lia))) as [-> _].
  pose proof (sextet_range val 0 ltac:(lia)) as H0.
  rewrite Z.shiftr_0_r in H0.
  destruct (alphabet_decode _ H0) as [-> _].
  simpl. by rewrite sextets_value.
Qed.

(** Induction on a string, three bytes at a time. *)
Lemma string_ind3 (P : string → Prop) :
  P EmptyString →
  (∀ a, P (String a EmptyString)) →
  (∀ a b, P (String a (String b EmptyString))) →
  (∀ a b c rest, P rest → P (String a (String b (String c rest)))) →
  ∀ s, P s.
Proof.
  intros H0 H1 H2 H3 s.
  assert (P s ∧ (∀ a, P (String a s)) ∧ (∀ a b, P (String a (String b s))))
    as [H _]; [|exact H].
  induction s as [|c s (IH0 & IH1 & IH2)].
  - auto.
  - split; [apply IH1|]. split; [intros a; apply IH2|].
    intros a b. by apply H3.
Qed.

(** Decoding what [EncodeToString] produced gives the bytes back. *)
Lemma DecodeString_EncodeToString (src : string) :
  DecodeString (EncodeToString src) = Some src.
Proof.
  induction src as [|a|a b|a b c rest IH] using string_ind3.
  - reflexivity.
  - pose proof (uint_range a) as Ha.
    cbn [EncodeToString].
    set (val := Z.shiftl (uint a) 16).
    assert (val = uint a * 65536 + 0 * 256 + 0) as Hval.
    { subst val. rewrite Z.shiftl_mul_pow2 by lia. change (2 ^ 16) with 65536. lia. }
    cbn [DecodeString]. rewrite decide_True, decide_True, decide_True by done.
    assert (encode (Z.land (Z.shiftr val 6) 63) = "A"%char) as H6.
    { rewrite sextet_eq by lia. change (2 ^ 6) with 64.
      replace ((val / 64) mod 64) with 0; [done|].
      rewrite Hval. Z.div_mod_to_equations. lia. }
    assert (encode (Z.land val 63) = "A"%char) as H0.
    { replace (Z.land val 63) with 0; [done|].
      rewrite <- (Z.shiftr_0_r val), sextet_eq by lia. change (2 ^ 0) with 1.
      rewrite Hval. Z.div_mod_to_equations. lia. }
    rewrite <- H6 at 1. rewrite <- H0.
    rewrite quantum_of_value by lia. simpl.
    destruct (bytes_of_value (uint a) 0 0) as (Hb & _); [lia..|].
    rewrite <- Hval in Hb. by rewrite (byte_eq _ a Hb).
  - pose proof (uint_range a) as Ha. pose proof (uint_range b) as Hb.
    cbn [EncodeToString].
    set (val := Z.lor (Z.shiftl (uint a) 16) (Z.shiftl (uint b) 8)).
    assert (val = uint a * 65536 + uint b * 256 + 0) as Hval.
    { subst val. rewrite <- (group_value (uint a) (uint b) 0) by lia.
      by rewrite Z.lor_0_r. }
    destruct (alphabet_decode _ (sextet_range val 6 ltac:(lia))) as [_ Hpad].
    cbn [DecodeString]. rewrite decide_True, decide_True, decide_False by done.
    assert (encode (Z.land val 63) = "A"%char) as H0.
    { replace (Z.land val 63) with 0; [done|].
      rewrite <- (Z.shiftr_0_r val), sextet_eq by lia. change (2 ^ 0) with 1.
      rewrite Hval. Z.div_mod_to_equations. lia. }
    rewrite <- H0. rewrite quantum_of_value by lia. simpl.
    destruct (bytes_of_value (uint a) (uint b) 0) as (H1 & H2 & _); [lia..|].
    rewrite <- Hval in H1, H2.
    by rewrite (byte_eq _ a H1), (byte_eq _ b H2).
  - pose proof (uint_range a) as Ha. pose proof (uint_range b) as Hb.
    pose proof (uint_range c) as Hc.
    cbn [EncodeToString].
    set (val := Z.lor (Z.lor (Z.shiftl (uint a) 16) (Z.shiftl (uint b) 8))
                      (uint c)).
    assert (val = uint a * 65536 + uint b * 256 + uint c) as Hval
      by (by apply group_value).
    pose proof (sextet_range val 0 ltac:(lia)) as H0.
    rewrite Z.shiftr_0_r in H0.
    destruct (alphabet_decode _ H0) as [_ Hpad].
    cbn [DecodeString]. rewrite decide_False by done.
    rewrite quantum_of_value by lia. simpl. rewrite IH. simpl.
    destruct (bytes_of_value (uint a) (uint b) (uint c)) as (H1 & H2 & H3);
      [lia..|].
    rewrite <- Hval in H1, H2, H3.
    by rewrite (byte_eq _ a H1), (byte_eq _ b H2), (byte_eq _ c H3).
Qed.

(** Two texts with the same encoding are the same text. *)
Lemma EncodeToString_inj (s t : string) :
  EncodeToString s = EncodeToString t → s = t.
Proof.
  intros H. apply (f_equal DecodeString) in H.
  rewrite !DecodeString_EncodeToString in H. by injection H.
Qed.

End base64_facts.

(** [%.6f] on a few values. *)
Example FormatFloat6_examples :
  Strconv.FormatFloat6 1.5%float = "1.500000"
  ∧ Strconv.FormatFloat6 42%float = "42.000000"
  ∧ Strconv.FormatFloat6 (-0.125)%float = "-0.125000"
  ∧ Strconv.FormatFloat6 1.52587890625e-05%float = "0.000015"
  ∧ Strconv.FormatFloat6 0.0009765625%float = "0.000977"
  ∧ Strconv.FormatFloat6 1e21%float = "1000000000000000000000.000000".
Proof. repeat split; vm_compute; reflexivity. Qed.

(** ** The static asset server *)

Section static_assets.

Import GoStrings Aghamon.

(** The content type chosen by [serveStaticFile] is the one of the
    mapping of the specification. *)
Lemma content_type_chain (path : string) :
  (if HasSuffix path ".png" then "image/png"
   else if HasSuffix path ".jpg" || HasSuffix path ".jpeg" then "image/jpeg"
   else if HasSuffix path ".css" then "text/css"
   else if HasSuffix path ".js" then "application/javascript"
   else "application/octet-stream")
  = Spec.content_type_of path.
Proof.
  unfold Spec.content_type_of, Spec.extension_types. simpl.
  destruct (HasSuffix path ".png"); [done|].
  destruct (HasSuffix path ".jpg"); [done|].
  destruct (HasSuffix path ".jpeg"); [done|].
  destruct (HasSuffix path ".css"); [done|].
  by destruct (HasSuffix path ".js").
Qed.

(** A name with a parent-directory segment is not the empty name. *)
Lemma occurrence_nonempty (a sub b : string) :
  sub ≠ EmptyString → a +:+ sub +:+ b ≠ EmptyString.
Proof.
  intros Hsub H. destruct a as [|c a]; [|done].
  rewrite str_app_nil_l in H. by destruct sub.
Qed.

(** C1. Whatever the asset store holds, a requested file name in which
    [..] occurs is answered 403 Forbidden, and the trace is empty: the
    asset store is not consulted. *)
Theorem serveStaticFile_dotdot_forbidden (env : Env) (file : string) :
  (∃ a b, file = a +:+ ".." +:+ b) →
  serveStaticFile env file = ([], String_ 403 "Forbidden").
Proof.
  intros (a & b & ->). unfold serveStaticFile.
  rewrite decide_False by (by apply occurrence_nonempty).
  assert (Contains (a +:+ ".." +:+ b) ".." = true) as ->
    by (apply Contains_spec; eauto).
  reflexivity.
Qed.

Lemma serveStaticFile_dotdot_forbidden_witness :
  embedded (Samples.with_embedded Samples.every_file Samples.offline)
    assetFS "assets/../config.yaml" = Ok "secret"
  ∧ serveStaticFile (Samples.with_embedded Samples.every_file Samples.offline)
      "../config.yaml"
    = ([], String_ 403 "Forbidden").
Proof.
  split; [reflexivity|].
  apply serveStaticFile_dotdot_forbidden.
  exists EmptyString, "/config.yaml". reflexivity.
Defined.

(** C9. A requested file name without [..] is looked up in the asset
    store under [assets/] (the empty name as [index.html]): when the
    store has no such file the answer is 404, and when it has one the
    answer is 200 with its data and the content type the specification's
    mapping gives for the extension, [application/octet-stream] by
    default; for [logo_small.png] that type is [image/png]. *)
Theorem serveStaticFile_lookup (env : Env) (file : string) :
  (¬ ∃ a b, file = a +:+ ".." +:+ b) →
  let name := if decide (file = EmptyString) then "index.html" else file in
  (∀ err, embedded env assetFS ("assets/" +:+ name) = Err err →
     serveStaticFile env file
     = ([EvReadFile assetFS ("assets/" +:+ name)],
        String_ 404 "File not found"))
  ∧ (∀ data, embedded env assetFS ("assets/" +:+ name) = Ok data →
     serveStaticFile env file
     = ([EvReadFile assetFS ("assets/" +:+ name)],
        Blob 200 (Spec.content_type_of name) data))
  ∧ Spec.content_type_of "logo_small.png" = "image/png"
  ∧ Spec.content_type_of "notes.txt" = "application/octet-stream".
Proof.
  intros Hfile name.
  assert (Contains name ".." = false) as Hno.
  { subst name. destruct (decide (file = EmptyString)); [reflexivity|].
    destruct (Contains file "..") eqn:E; [|done].
    apply Contains_spec in E. contradiction. }
  unfold serveStaticFile. fold name. rewrite Hno.
  split; [|split; [|split; reflexivity]].
  - intros err E. unfold ReadFile, call, bind, ret. by rewrite E.
  - intros data E. unfold ReadFile, call, bind, ret. rewrite E.
    by rewrite content_type_chain.
Qed.

Lemma serveStaticFile_lookup_witness :
  serveStaticFile (Samples.with_embedded Samples.repository_files Samples.offline)
    "logo_small.png"
  = ([EvReadFile assetFS "assets/logo_small.png"],
     Blob 200 "image/png" "PNG logo")
  ∧ serveStaticFile (Samples.with_embedded Samples.repository_files Samples.offline)
      "missing.css"
    = ([EvReadFile assetFS "assets/missing.css"], String_ 404 "File not found").
Proof.
  split.
  - refine (proj1 (proj2 (serveStaticFile_lookup _ "logo_small.png" _)) _ _).
    + intros (a & b & E). apply (f_equal (λ s, Contains s "..")) in E.
      rewrite (proj2 (Contains_spec (a +:+ ".." +:+ b) "..")) in E by eauto.
      vm_compute in E. discriminate E.
    + reflexivity.
  - refine (proj1 (serveStaticFile_lookup _ "missing.css" _) _ _).
    + intros (a & b & E). apply (f_equal (λ s, Contains s "..")) in E.
      rewrite (proj2 (Contains_spec (a +:+ ".." +:+ b) "..")) in E by eauto.
      vm_compute in E. discriminate E.
    + reflexivity.
Defined.

End static_assets.

(** ** The appliance client *)

Section appliance_client.

Import GoStrings Aghamon.

Lemma NewRequest_Ok (env : Env) (method url : string) (req : Request) :
  NewRequest env method url = Ok req →
  req = {| Method := method; URL := url; Header := ∅ |}.
Proof.
  unfold NewRequest.
  destruct (stringContainsCTLByte (before_fragment url)); [done|].
  destruct (url_syntax env url); [done|]. by intros [= <-].
Qed.

Lemma NewRequest_accepts (env : Env) (method url : string) :
  stringContainsCTLByte (before_fragment url) = false →
  url_syntax env url = None →
  NewRequest env method url
  = Ok {| Method := method; URL := url; Header := ∅ |}.
Proof. unfold NewRequest. by intros -> ->. Qed.

(** The three calls of [Header.Set] on the fresh request build the
    request of the specification. *)
Lemma request_built (config : Config) (endpoint : string) :
  Header_Set "Referer" (ServerURL (AdGuard config) +:+ "/")
    (Header_Set "Accept" "application/json"
       (Header_Set "Authorization"
          ("Basic " +:+ getBasicAuth (Username (AdGuard config))
                                     (Password (AdGuard config)))
          {| Method := "GET";
             URL := ServerURL (AdGuard config) +:+ "/control/" +:+ endpoint;
             Header := ∅ |}))
  = Spec.api_request config endpoint.
Proof.
  unfold Header_Set, Spec.api_request, getBasicAuth. simpl. f_equal.
Qed.

Lemma fetchClients_eq (env : Env) (config : Config) :
  fetchClients env config
  = match NewRequest env "GET" (ServerURL (AdGuard config) +:+ "/control/clients") with
    | Err err => ([], Err err)
    | Ok _ =>
        ([EvDo (Spec.api_request config "clients")],
         Spec.answer_of (json_Unmarshal_clients env)
           (roundTrip env (Spec.api_request config "clients")))
    end.
Proof.
  unfold fetchClients.
  destruct (NewRequest _ _ _) as [req|err] eqn:E; [|done].
  apply NewRequest_Ok in E as ->. cbv zeta.
  pose proof (request_built config "clients") as Hreq.
  change ("/control/" +:+ "clients") with "/control/clients" in Hreq at 1.
  rewrite Hreq.
  unfold client_Do, call, bind, ret, Spec.answer_of, ReadAll.
  destruct (roundTrip env _) as [[[body|err]]|err]; simpl; [|done..].
  by destruct (json_Unmarshal_clients env body).
Qed.

Lemma fetchStats_eq (env : Env) (config : Config) :
  fetchStats env config
  = match NewRequest env "GET" (ServerURL (AdGuard config) +:+ "/control/stats") with
    | Err err => ([], Err err)
    | Ok _ =>
        ([EvDo (Spec.api_request config "stats")],
         Spec.answer_of (json_Unmarshal_stats env)
           (roundTrip env (Spec.api_request config "stats")))
    end.
Proof.
  unfold fetchStats.
  destruct (NewRequest _ _ _) as [req|err] eqn:E; [|done].
  apply NewRequest_Ok in E as ->. cbv zeta.
  pose proof (request_built config "stats") as Hreq.
  change ("/control/" +:+ "stats") with "/control/stats" in Hreq at 1.
  rewrite Hreq.
  unfold client_Do, call, bind, ret, Spec.answer_of, ReadAll.
  destruct (roundTrip env _) as [[[body|err]]|err]; simpl; [|done..].
  by destruct (json_Unmarshal_stats env body).
Qed.

Lemma fetchClients_network_error (env : Env) (config : Config) (err : error) :
  (∃ req, NewRequest env "GET" (ServerURL (AdGuard config) +:+ "/control/clients")
          = Ok req) →
  roundTrip env (Spec.api_request config "clients") = Err err →
  value (fetchClients env config) = Err err.
Proof. intros [req E] Hnet. by rewrite fetchClients_eq, E; simpl; rewrite Hnet. Qed.

Lemma fetchClients_decode_error (env : Env) (config : Config)
    (body : string) (err : error) :
  (∃ req, NewRequest env "GET" (ServerURL (AdGuard config) +:+ "/control/clients")
          = Ok req) →
  roundTrip env (Spec.api_request config "clients") = Ok {| Body := Ok body |} →
  json_Unmarshal_clients env body = Err err →
  value (fetchClients env config) = Err err.
Proof.
  intros [req E] Hnet Hjson.
  by rewrite fetchClients_eq, E; simpl; rewrite Hnet; simpl.
Qed.

Lemma fetchStats_network_error (env : Env) (config : Config) (err : error) :
  (∃ req, NewRequest env "GET" (ServerURL (AdGuard config) +:+ "/control/stats")
          = Ok req) →
  roundTrip env (Spec.api_request config "stats") = Err err →
  value (fetchStats env config) = Err err.
Proof. intros [req E] Hnet. by rewrite fetchStats_eq, E; simpl; rewrite Hnet. Qed.

Lemma fetchStats_decode_error (env : Env) (config : Config)
    (body : string) (err : error) :
  (∃ req, NewRequest env "GET" (ServerURL (AdGuard config) +:+ "/control/stats")
          = Ok req) →
  roundTrip env (Spec.api_request config "stats") = Ok {| Body := Ok body |} →
  json_Unmarshal_stats env body = Err err →
  value (fetchStats env config) = Err err.
Proof.
  intros [req E] Hnet Hjson.
  by rewrite fetchStats_eq, E; simpl; rewrite Hnet; simpl.
Qed.

(** [Sprintf] with a message and [%v] at its end. *)
Lemma error_message_contains (message : string) (err : error) :
  Contains (message +:+ err) err = true.
Proof.
  apply Contains_spec. exists message, EmptyString. by rewrite str_app_nil_r.
Qed.

Lemma value_bind {A B : Type} (m : IO A) (k : A → IO B) :
  value (bind m k) = value (k (value m)).
Proof. destruct m as [t a]. unfold bind, value. simpl. by destruct (k a). Qed.

Lemma trace_bind {A B : Type} (m : IO A) (k : A → IO B) :
  trace (bind m k) = trace m ++ trace (k (value m)).
Proof. destruct m as [t a]. unfold bind, trace, value. simpl. by destruct (k a). Qed.

(** C2. When the fetch of a handler fails, with whatever error (the
    network error of [client.Do], the error of reading the body or the
    error of the JSON decoder), the handler answers with [c.String]:
    status 500 and a body made of a fixed message followed by the text of
    that error, which therefore occurs in the body.  This holds for
    [/clients], [/stats] and [/upstreams]. *)
Theorem handlers_report_fetch_error (env : Env) (config : Config) :
  (∀ err, value (fetchClients env config) = Err err →
     value (clientsHandler env config)
     = String_ 500 ("Error fetching clients: " +:+ err)
     ∧ Contains ("Error fetching clients: " +:+ err) err = true)
  ∧ (∀ err, value (fetchStats env config) = Err err →
     value (statsHandler env config)
     = String_ 500 ("Error fetching stats: " +:+ err)
     ∧ Contains ("Error fetching stats: " +:+ err) err = true)
  ∧ (∀ err, value (fetchStats env config) = Err err →
     value (upstreamsHandler env config)
     = String_ 500 ("Error fetching upstreams: " +:+ err)
     ∧ Contains ("Error fetching upstreams: " +:+ err) err = true).
Proof.
  repeat split; try apply error_message_contains.
  - unfold clientsHandler. rewrite value_bind, H. simpl.
    by rewrite str_app_nil_r.
  - unfold statsHandler. rewrite value_bind, H. simpl.
    by rewrite str_app_nil_r.
  - unfold upstreamsHandler. rewrite value_bind, H. simpl.
    by rewrite str_app_nil_r.
Qed.

Lemma handlers_report_fetch_error_witness :
  value (clientsHandler Samples.offline Samples.example_config)
  = String_ 500 "Error fetching clients: dial tcp 10.0.0.1:443: connect: connection refused"
  ∧ value (statsHandler Samples.garbled Samples.example_config)
    = String_ 500 "Error fetching stats: invalid character '<' looking for beginning of value"
  ∧ value (upstreamsHandler Samples.offline Samples.example_config)
    = String_ 500 "Error fetching upstreams: dial tcp 10.0.0.1:443: connect: connection refused".
Proof.
  split; [|split].
  - apply (proj1 (handlers_report_fetch_error Samples.offline Samples.example_config)).
    reflexivity.
  - apply (proj1 (proj2 (handlers_report_fetch_error Samples.garbled
                           Samples.example_config))).
    reflexivity.
  - apply (proj2 (proj2 (handlers_report_fetch_error Samples.offline
                           Samples.example_config))).
    reflexivity.
Defined.

(** [getBasicAuth] on the credentials of the example scenario. *)
Example getBasicAuth_example : getBasicAuth "a" "b" = "YTpi".
Proof. reflexivity. Qed.

(** A URL that [http.NewRequest] refuses never reaches the client. *)
Lemma fetch_refused_url (env : Env) (config : Config) (err : error) :
  (NewRequest env "GET" (ServerURL (AdGuard config) +:+ "/control/clients")
   = Err err → fetchClients env config = ([], Err err))
  ∧ (NewRequest env "GET" (ServerURL (AdGuard config) +:+ "/control/stats")
     = Err err → fetchStats env config = ([], Err err)).
Proof.
  split; intros E.
  - by rewrite fetchClients_eq, E.
  - by rewrite fetchStats_eq, E.
Qed.

(** C3, as stated, fails: with a server URL that holds a control byte
    (here a line feed at its end) [http.NewRequest] returns the error of
    [url.Parse], which quotes the URL, and neither function hands a
    request to the client. *)
Lemma fetch_control_byte_no_request :
  fetchClients Samples.offline Samples.newline_config
  = ([], Err (lit "parse 'https://dns.example.com\n/control/clients': net/url: invalid control character in URL"))
  ∧ fetchStats Samples.offline Samples.newline_config
    = ([], Err (lit "parse 'https://dns.example.com\n/control/stats': net/url: invalid control character in URL"))
  ∧ trace (fetchClients Samples.offline Samples.newline_config)
    ≠ [EvDo (Spec.api_request Samples.newline_config "clients")].
Proof. split; [|split]; [reflexivity..|discriminate]. Qed.

(** C3, amended. Whenever [http.NewRequest] accepts the URL
    [{server_url}/control/clients], the request [fetchClients] hands to
    [http.Client.Do] is a GET for exactly that URL which carries
    [Authorization] equal to [Basic ] followed by the base64 encoding of
    [username:password] (which decodes to it), [Accept] equal to
    [application/json] and [Referer] equal to the server URL followed
    by [/]; so it is for [fetchStats] and [{server_url}/control/stats].
    When [http.NewRequest] refuses the URL, the function returns that
    error and hands no request to the client. *)
Theorem fetch_hands_api_request (env : Env) (config : Config) :
  ((∃ req, NewRequest env "GET"
             (ServerURL (AdGuard config) +:+ "/control/clients") = Ok req) →
   ∃ req,
     trace (fetchClients env config) = [EvDo req]
     ∧ Method req = "GET"
     ∧ URL req = ServerURL (AdGuard config) +:+ "/control/clients"
     ∧ Header_Get "Authorization" req
       = "Basic " +:+ Base64.EncodeToString
                        (Username (AdGuard config) +:+ ":"
                         +:+ Password (AdGuard config))
     ∧ Header_Get "Accept" req = "application/json"
     ∧ Header_Get "Referer" req = ServerURL (AdGuard config) +:+ "/")
  ∧ ((∃ req, NewRequest env "GET"
               (ServerURL (AdGuard config) +:+ "/control/stats") = Ok req) →
     ∃ req,
       trace (fetchStats env config) = [EvDo req]
       ∧ Method req = "GET"
       ∧ URL req = ServerURL (AdGuard config) +:+ "/control/stats"
       ∧ Header_Get "Authorization" req
         = "Basic " +:+ Base64.EncodeToString
                          (Username (AdGuard config) +:+ ":"
                           +:+ Password (AdGuard config))
       ∧ Header_Get "Accept" req = "application/json"
       ∧ Header_Get "Referer" req = ServerURL (AdGuard config) +:+ "/")
  ∧ Base64.DecodeString (getBasicAuth (Username (AdGuard config))
                                      (Password (AdGuard config)))
    = Some (Username (AdGuard config) +:+ ":" +:+ Password (AdGuard config))
  ∧ (∀ err, NewRequest env "GET"
              (ServerURL (AdGuard config) +:+ "/control/clients") = Err err →
       fetchClients env config = ([], Err err))
  ∧ (∀ err, NewRequest env "GET"
              (ServerURL (AdGuard config) +:+ "/control/stats") = Err err →
       fetchStats env config = ([], Err err)).
Proof.
  split; [|split; [|split; [|split]]].
  - intros [req E]. exists (Spec.api_request config "clients").
    rewrite fetchClients_eq, E. by repeat split.
  - intros [req E]. exists (Spec.api_request config "stats").
    rewrite fetchStats_eq, E. by repeat split.
  - apply DecodeString_EncodeToString.
  - intros err. apply fetch_refused_url.
  - intros err. apply fetch_refused_url.
Qed.

Lemma fetch_hands_api_request_witness :
  ∃ req,
    trace (fetchClients Samples.offline Samples.example_config) = [EvDo req]
    ∧ URL req = "https://dns.example.com/control/clients"
    ∧ Header_Get "Authorization" req = "Basic YTpi"
    ∧ Header_Get "Referer" req = "https://dns.example.com/".
Proof.
  destruct (proj1 (fetch_hands_api_request Samples.offline
                     Samples.example_config))
    as (req & Htrace & _ & Hurl & Hauth & _ & Href).
  { eexists. reflexivity. }
  exists req. split; [exact Htrace|]. split; [exact Hurl|].
  split; [exact Hauth|exact Href].
Defined.

End appliance_client.

(** ** The view renderer *)

Section view_renderer.

Import GoStrings Aghamon.

Lemma rows_text_app (rows1 rows2 : list string) :
  Spec.rows_text (rows1 ++ rows2)
  = Spec.rows_text rows1 +:+ Spec.rows_text rows2.
Proof.
  induction rows1 as [|r rows1 IH]; [done|].
  simpl. by rewrite IH, str_app_assoc.
Qed.

(** A loop that writes one row per element writes the rows in order. *)
Lemma range_from_write {A : Type} (f : A → string) (l : list A)
    (i : nat) (sb : string) :
  range_from i l (λ _ x sb, WriteString sb (f x)) sb
  = sb +:+ Spec.rows_text (f <$> l).
Proof.
  revert i sb. induction l as [|x l IH]; intros i sb; simpl.
  - by rewrite str_app_nil_r.
  - rewrite IH. unfold WriteString. by rewrite str_app_assoc.
Qed.

(** Two loop bodies that agree on the elements of the slice give the
    same loop. *)
Lemma range_from_ext {A St : Type} (body1 body2 : nat → A → St → St)
    (l : list A) (i : nat) (st : St) :
  (∀ j x st', x ∈ l → body1 j x st' = body2 j x st') →
  range_from i l body1 st = range_from i l body2 st.
Proof.
  revert i st. induction l as [|x l IH]; intros i st Hbody; [done|].
  simpl. rewrite Hbody by apply list_elem_of_here.
  apply IH. intros j y st' Hy. apply Hbody. by apply list_elem_of_further.
Qed.

Lemma generateHTMLTable_rows (clients : list Client) :
  generateHTMLTable clients
  = clientsTableHead +:+ Spec.rows_text (clientRow <$> clients) +:+ tableFoot.
Proof.
  unfold generateHTMLTable, range_slice. rewrite range_from_write.
  unfold WriteString. by rewrite str_app_nil_l, str_app_assoc.
Qed.

(** The row of a client shows its six fields, in the order of the
    columns. *)
Lemma clientRow_fields (client : Client) :
  clientRow client
  = "
      <tr>
        <td>" +:+ IP client +:+ "</td>
        <td>" +:+ Name client +:+ "</td>
        <td>" +:+ Source client +:+ "</td>
        <td>" +:+ Country (WhoisInfo client) +:+ "</td>
        <td>" +:+ OrgName (WhoisInfo client) +:+ "</td>
        <td>" +:+ City (WhoisInfo client) +:+ "</td>
      </tr>".
Proof. reflexivity. Qed.

(** The scenarios of section 8 of the specification: the table of no
    client has no row; the client of the example has the row of its six
    fields; the entry [example.com: 42] has the row 1, example.com, 42. *)
Example section8_scenarios :
  generateHTMLTable [] = clientsTableHead +:+ tableFoot
  ∧ clientRow Samples.laptop
    = "
      <tr>
        <td>10.0.0.5</td>
        <td>laptop</td>
        <td>rdns</td>
        <td>US</td>
        <td>ISP</td>
        <td>NYC</td>
      </tr>"
  ∧ ranked_rows (λ _, 0%nat) Samples.ranking_example
    = [(1, "example.com", 42); (2, "example.org", 7)]
  ∧ statsRow 1 "example.com" 42
    = lit "
        <tr>
          <td>1</td>
          <td>example.com</td>
          <td style='text-align: right;'>42</td>
        </tr>"
  ∧ upstreamsRow 1 "1.1.1.1:53" 0.0625%float
    = lit "
        <tr>
          <td>1</td>
          <td>1.1.1.1:53</td>
          <td style='text-align: right;'>0.062500</td>
        </tr>".
Proof. repeat split; vm_compute; reflexivity. Qed.

(** *** The entry a loop over a map visits first *)

Lemma first_entry_empty {V : Type} (start : nat) :
  first_entry start (∅ : gmap string V) = None.
Proof. unfold first_entry. by rewrite map_to_list_empty. Qed.



Lemma first_entry_nonempty {V : Type} (start : nat) (m : gmap string V) :
  m ≠ ∅ → ∃ key value, first_entry start m = Some (key, value).
Proof.
  intros Hm. unfold first_entry.
  assert (length (map_to_list m) ≠ 0%nat) as Hlen.
  { rewrite length_map_to_list. by apply map_size_non_empty_iff. }
  destruct (lookup_lt_is_Some_2 (map_to_list m)
              (start mod length (map_to_list m))%nat) as [[key value] H].
  { by apply Nat.mod_upper_bound. }
  eauto.
Qed.

(** On a map with at most one entry the order does not matter. *)
Lemma first_entry_small {V : Type} (start1 start2 : nat) (m : gmap string V) :
  (size m ≤ 1)%nat → first_entry start1 m = first_entry start2 m.
Proof.
  unfold first_entry. rewrite <- length_map_to_list.
  destruct (map_to_list m) as [|e [|e' l]]; intros Hm;
    [done| |simpl in Hm; lia].
  change (length [e]) with 1%nat. by rewrite !Nat.mod_1_r.
Qed.



(** *** The rows of a ranked table *)

Lemma collect_from_acc {V : Type} (start : nat → nat)
    (data : list (gmap string V)) (i : nat) (acc : list (Z * string * V)) :
  range_from i data (collect_row start) acc
  = acc ++ range_from i data (collect_row start) [].
Proof.
  revert i acc. induction data as [|item data IH]; intros i acc; simpl.
  - by rewrite app_nil_r.
  - rewrite IH, (IH _ (collect_row start i item [])).
    unfold collect_row, range_map_break.
    destruct (first_entry (start i) item) as [[key value]|]; simpl.
    + by rewrite <- app_assoc.
    + done.
Qed.

Lemma collect_from_cons {V : Type} (start : nat → nat)
    (item : gmap string V) (data : list (gmap string V)) (i : nat) :
  range_from i (item :: data) (collect_row start) []
  = match first_entry (start i) item with
    | Some (key, value) => [(Z.of_nat i + 1, key, value)]
    | None => []
    end ++ range_from (S i) data (collect_row start) [].
Proof.
  simpl. by rewrite collect_from_acc.
Qed.

(** The loop of a ranked table writes the rows of [ranked_rows]. *)
Lemma range_from_ranked {V : Type} (row : Z → string → V → string)
    (start : nat → nat) (data : list (gmap string V)) (i : nat) (sb : string) :
  range_from i data (λ i item sb,
    range_map_break (start i) item (λ key value sb,
      WriteString sb (row (Z.of_nat i + 1) key value)) sb) sb
  = sb +:+ Spec.rows_text
             ((λ r, row r.1.1 r.1.2 r.2)
                <$> range_from i data (collect_row start) []).
Proof.
  revert i sb. induction data as [|item data IH]; intros i sb.
  - simpl. by rewrite str_app_nil_r.
  - rewrite collect_from_cons. simpl. rewrite IH.
    unfold range_map_break.
    destruct (first_entry (start i) item) as [[key value]|]; simpl.
    + unfold WriteString. by rewrite str_app_assoc.
    + done.
Qed.

Lemma generateStatsTable_rows (start : nat → nat) (title valueLabel : string)
    (data : list (gmap string Z)) :
  generateStatsTable start title data valueLabel
  = Spec.ranked_table_text statsTableHead1 statsTableHead2 statsRow
      title valueLabel (ranked_rows start data).
Proof.
  unfold generateStatsTable, range_slice, Spec.ranked_table_text, ranked_rows,
    range_slice.
  rewrite (range_from_ranked statsRow). unfold WriteString.
  by rewrite str_app_nil_l, !str_app_assoc.
Qed.

Lemma generateUpstreamsTable_rows (start : nat → nat)
    (title valueLabel : string) (data : list (gmap string float)) :
  generateUpstreamsTable start title data valueLabel
  = Spec.ranked_table_text upstreamsTableHead1 upstreamsTableHead2 upstreamsRow
      title valueLabel (ranked_rows start data).
Proof.
  unfold generateUpstreamsTable, range_slice, Spec.ranked_table_text,
    ranked_rows, range_slice.
  rewrite (range_from_ranked upstreamsRow). unfold WriteString.
  by rewrite str_app_nil_l, !str_app_assoc.
Qed.





(** The rows are those of the first item, then those of the second, and
    so on: at most one row for each item, in the order of the input. *)
Lemma rows_from_concat {V : Type} (start : nat → nat)
    (data : list (gmap string V)) (i : nat) :
  range_from i data (collect_row start) []
  = concat (imap (λ j item, collect_row start (i + j) item []) data).
Proof.
  revert i. induction data as [|item data IH]; intros i; [done|].
  rewrite collect_from_cons, imap_cons, Nat.add_0_r. simpl. f_equal.
  rewrite IH. f_equal. apply imap_ext. intros j x _. simpl.
  by rewrite Nat.add_succ_r.
Qed.





(** C7, as stated, fails: on an item with two keys the row depends on
    where the runtime starts the iteration of the map, so two runs on the
    same input give two different tables. *)
Lemma ranked_table_depends_on_map_order :
  ranked_rows (λ _, 0%nat) Samples.ranking_two_keys = [(1, "a", 1)]
  ∧ ranked_rows (λ _, 1%nat) Samples.ranking_two_keys = [(1, "b", 2)]
  ∧ generateStatsTable (λ _, 0%nat) "Top Clients" Samples.ranking_two_keys "Count"
    ≠ generateStatsTable (λ _, 1%nat) "Top Clients" Samples.ranking_two_keys "Count".
Proof.
  split; [reflexivity|]. split; [reflexivity|].
  intros H. apply (f_equal (λ s, Contains s "<td>a</td>")) in H.
  vm_compute in H. discriminate H.
Qed.

(** C7, amended. The clients table and the page contents are functions
    of their arguments alone.  On lists whose items have at most one key
    the ranked table and the upstream-time table do not depend on the
    iteration order of the maps: any two runs give the same text. *)
Theorem renderers_deterministic (start1 start2 : nat → nat)
    (title valueLabel : string)
    (data : list (gmap string Z)) (times : list (gmap string float)) :
  (∀ item, item ∈ data → (size item ≤ 1)%nat) →
  (∀ item, item ∈ times → (size item ≤ 1)%nat) →
  generateStatsTable start1 title data valueLabel
  = generateStatsTable start2 title data valueLabel
  ∧ generateUpstreamsTable start1 title times valueLabel
    = generateUpstreamsTable start2 title times valueLabel
  ∧ (∀ clients1 clients2, clients1 = clients2 →
       generateHTMLTable clients1 = generateHTMLTable clients2)
  ∧ (∀ total1 total2 table1 table2, total1 = total2 → table1 = table2 →
       generateClientsContent total1 table1
       = generateClientsContent total2 table2)
  ∧ (∀ units1 units2 queries1 queries2 blocked1 blocked2 time1 time2
       domains1 domains2 clients1 clients2 top1 top2,
       units1 = units2 → queries1 = queries2 → blocked1 = blocked2 →
       time1 = time2 → domains1 = domains2 → clients1 = clients2 →
       top1 = top2 →
       generateStatsContent units1 queries1 blocked1 time1 domains1
         clients1 top1
       = generateStatsContent units2 queries2 blocked2 time2 domains2
           clients2 top2)
  ∧ (∀ count1 count2 time1 time2, count1 = count2 → time1 = time2 →
       generateUpstreamsContent count1 time1
       = generateUpstreamsContent count2 time2).
Proof.
  intros Hdata Htimes.
  split; [|split; [|split; [|split; [|split]]]].
  - unfold generateStatsTable, range_slice. f_equal.
    apply range_from_ext. intros j item sb Hin.
    unfold range_map_break.
    by rewrite (first_entry_small (start1 j) (start2 j)) by by apply Hdata.
  - unfold generateUpstreamsTable, range_slice. f_equal.
    apply range_from_ext. intros j item sb Hin.
    unfold range_map_break.
    by rewrite (first_entry_small (start1 j) (start2 j)) by by apply Htimes.
  - by intros ?? ->.
  - by intros ???? -> ->.
  - by intros ?????????????? -> -> -> -> -> -> ->.
  - by intros ???? -> ->.
Qed.

Lemma renderers_deterministic_witness :
  generateStatsTable (λ _, 0%nat) "Top Queried Domains"
    Samples.ranking_example "Count"
  = generateStatsTable (λ i, (7 + i)%nat) "Top Queried Domains"
      Samples.ranking_example "Count"
  ∧ generateUpstreamsTable (λ _, 0%nat) "Top Upstreams by Average Response Time"
      Samples.times_example "Time"
    = generateUpstreamsTable (λ i, (7 + i)%nat)
        "Top Upstreams by Average Response Time" Samples.times_example "Time".
Proof.
  assert (∀ item, item ∈ Samples.ranking_example → (size item ≤ 1)%nat) as H1.
  { intros item Hin. apply list_elem_of_In in Hin. simpl in Hin.
    destruct Hin as [<-|[<-|[]]]; vm_compute; lia. }
  assert (∀ item, item ∈ Samples.times_example → (size item ≤ 1)%nat) as H2.
  { intros item Hin. apply list_elem_of_In in Hin. simpl in Hin.
    destruct Hin as [<-|[]]. vm_compute. lia. }
  pose proof (renderers_deterministic (λ _, 0%nat) (λ i, (7 + i)%nat)
                "Top Queried Domains" "Count"
                Samples.ranking_example Samples.times_example H1 H2) as [Hs _].
  pose proof (renderers_deterministic (λ _, 0%nat) (λ i, (7 + i)%nat)
                "Top Upstreams by Average Response Time" "Time"
                Samples.ranking_example Samples.times_example H1 H2) as (_ & Hu & _).
  split; [exact Hs|exact Hu].
Defined.

End view_renderer.

(** ** Start of the process *)

Section startup.

Import Aghamon.

Lemma trace_loadConfig (env : Env) :
  trace (loadConfig env) = [EvOpen "config.yaml"].
Proof.
  unfold loadConfig, call, bind, ret, trace.
  destruct (files env "config.yaml") as [file|err]; [|done].
  by destruct (Decoder_Decode env file zeroConfig).
Qed.

(** The start of the process opens one file, [config.yaml], and listens
    on one address, [:8080]. *)
Lemma main_trace (env : Env) :
  trace (main env) = [EvOpen "config.yaml"]
  ∨ trace (main env)
    = [EvOpen "config.yaml"; EvReadFile templateFS "templates/base.html"]
  ∨ trace (main env)
    = [EvOpen "config.yaml"; EvReadFile templateFS "templates/base.html";
       EvStart ":8080"].
Proof.
  unfold main. rewrite trace_bind, trace_loadConfig.
  destruct (value (loadConfig env)) as [config|err]; [|by left].
  rewrite trace_bind. unfold ReadFile, call at 1 2. simpl.
  destruct (embedded env templateFS "templates/base.html") as [t|err];
    [|by right; left].
  destruct (template_Parse env t); [by right; left|].
  right; right. unfold call, bind, ret, trace.
  by destruct (echo_Start env ":8080").
Qed.

(** C8 fails on the code: [main] never reads the environment.  Whatever
    the variables [PORT] and [CONFIG_PATH] (or any other) are set to,
    the start of the process is the same, the only file it opens is
    [config.yaml] and the only address it listens on is [:8080]; so it
    is with [PORT=9090] and [CONFIG_PATH=/etc/aghamon/config.yaml]. *)
Theorem main_ignores_environment (env : Env) (vars : gmap string string) :
  main (Samples.with_environ vars env) = main env
  ∧ (∀ name, EvOpen name ∈ trace (main env) → name = "config.yaml")
  ∧ (∀ address, EvStart address ∈ trace (main env) → address = ":8080")
  ∧ main (Samples.with_environ Samples.readme_variables
            (Samples.installed Samples.example_document))
    = ([EvOpen "config.yaml"; EvReadFile templateFS "templates/base.html";
        EvStart ":8080"],
       Serving ":8080" Samples.example_config).
Proof.
  split; [reflexivity|].
  split; [|split; [|reflexivity]];
    intros x Hin; destruct (main_trace env) as [H|[H|H]];
    rewrite H in Hin; apply list_elem_of_In in Hin; simpl in Hin;
    intuition congruence.
Qed.

(** *** Decoding the config file *)

Lemma entry_absent (key : string) (content : list (string * Yaml.Node)) :
  key ∉ content.*1 → Spec.entry key content = None.
Proof.
  induction content as [|[k n] rest IH]; [done|]. simpl.
  intros Hnot. apply not_elem_of_cons in Hnot as [Hk Hrest].
  rewrite decide_False by done. by apply IH.
Qed.

Lemma field_text_absent (default key : string)
    (content : list (string * Yaml.Node)) :
  key ∉ content.*1 → Spec.field_text default key content = default.
Proof. intros H. unfold Spec.field_text. by rewrite entry_absent. Qed.

Lemma field_text_other (default key k : string) (n : Yaml.Node)
    (rest : list (string * Yaml.Node)) :
  k ≠ key →
  Spec.field_text default key ((k, n) :: rest)
  = Spec.field_text default key rest.
Proof. intros H. unfold Spec.field_text. simpl. by rewrite decide_False. Qed.

Lemma field_text_here (default key : string) (null : bool) (text : string)
    (rest : list (string * Yaml.Node)) :
  Spec.field_text default key ((key, Yaml.ScalarNode null text) :: rest)
  = if null then default else text.
Proof.
  unfold Spec.field_text. simpl. rewrite decide_True by done. by destruct null.
Qed.

(** The pairs of a well-formed [adguard] mapping set the three fields to
    the texts of their keys, and raise no type error. *)
Lemma AdGuard_fields_decoded (fields : list (string * Yaml.Node))
    (out : AdGuardConfig) (terrors : list Yaml.Cause) :
  NoDup fields.*1 →
  forallb (λ kv : string * Yaml.Node,
             if bool_decide (kv.1 ∈ Spec.config_keys) then Spec.is_scalar kv.2
             else true) fields = true →
  foldl (Yaml.visit AdGuard_field) (Ok (out, terrors)) fields
  = Ok ({| ServerURL := Spec.field_text (ServerURL out) "server_url" fields;
           Username := Spec.field_text (Username out) "username" fields;
           Password := Spec.field_text (Password out) "password" fields |},
        terrors).
Proof.
  revert out terrors.
  induction fields as [|[k v] rest IH]; intros out terrors Hnd Hok.
  - by destruct out.
  - rewrite fmap_cons in Hnd. apply NoDup_cons in Hnd as [Hk Hnd].
    simpl in Hok. apply andb_true_iff in Hok as [Hv Hok].
    simpl foldl. unfold AdGuard_field at 2.
    destruct (decide (k = "server_url")) as [->|H1];
      [|destruct (decide (k = "username")) as [->|H2];
        [|destruct (decide (k = "password")) as [->|H3]]].
    + destruct v as [null text| |]; try discriminate Hv.
      rewrite field_text_here, !field_text_other by done.
      destruct null; simpl; rewrite app_nil_r, IH by done; simpl;
        by rewrite field_text_absent.
    + destruct v as [null text| |]; try discriminate Hv.
      rewrite field_text_here, !field_text_other by done.
      destruct null; simpl; rewrite app_nil_r, IH by done; simpl;
        by rewrite (field_text_absent _ "username").
    + destruct v as [null text| |]; try discriminate Hv.
      rewrite field_text_here, !field_text_other by done.
      destruct null; simpl; rewrite app_nil_r, IH by done; simpl;
        by rewrite (field_text_absent _ "password").
    + rewrite !field_text_other by done. rewrite app_nil_r.
      by apply IH.
Qed.

(** A mapping with plain keys is decoded by the loop over its pairs. *)
Lemma mapping_plain {T : Type}
    (merge : list (string * Yaml.Node) → T → Yaml.decoding T)
    (field : string → Yaml.Node → T → Yaml.decoding T)
    (Content : list (string * Yaml.Node)) (out : T) :
  Spec.plain_keys Content = true →
  Yaml.mapping merge field Content out
  = foldl (Yaml.visit field) (Ok (out, [])) Content.
Proof.
  unfold Spec.plain_keys, Yaml.mapping.
  intros [Hnd Hmerge]%andb_true_iff.
  apply bool_decide_eq_true in Hnd. apply bool_decide_eq_true in Hmerge.
  by rewrite bool_decide_eq_false_2, bool_decide_eq_true_2.
Qed.

Lemma AdGuard_decoded
    (merge : list (string * Yaml.Node) → AdGuardConfig
             → Yaml.decoding AdGuardConfig) (n : Yaml.Node) :
  Spec.well_formed_adguard n = true →
  Yaml.unmarshal_struct merge AdGuard_field n (AdGuard zeroConfig)
  = Ok ({| ServerURL := Spec.field_text EmptyString "server_url"
                          (match n with Yaml.MappingNode fields => fields | _ => [] end);
           Username := Spec.field_text EmptyString "username"
                         (match n with Yaml.MappingNode fields => fields | _ => [] end);
           Password := Spec.field_text EmptyString "password"
                         (match n with Yaml.MappingNode fields => fields | _ => [] end) |},
        []).
Proof.
  destruct n as [[] text|fields|]; try done. simpl.
  intros [Hplain Hok]%andb_true_iff.
  rewrite mapping_plain by done.
  apply andb_true_iff in Hplain as [Hnd _]. apply bool_decide_eq_true in Hnd.
  by rewrite AdGuard_fields_decoded.
Qed.

Lemma entry_forallb (P : string * Yaml.Node → bool) (key : string)
    (content : list (string * Yaml.Node)) (n : Yaml.Node) :
  forallb P content = true → Spec.entry key content = Some n →
  P (key, n) = true.
Proof.
  induction content as [|[k v] rest IH]; [done|]. simpl.
  intros [Hv Hrest]%andb_true_iff.
  destruct (decide (k = key)) as [->|]; [by intros [= <-]|by apply IH].
Qed.

(** The text of the three keys of a well-formed [adguard] value. *)
Lemma adguard_of_entry (n : Yaml.Node) :
  Spec.well_formed_adguard n = true →
  {| ServerURL := Spec.field_text EmptyString "server_url"
                    (match n with Yaml.MappingNode fields => fields | _ => [] end);
     Username := Spec.field_text EmptyString "username"
                   (match n with Yaml.MappingNode fields => fields | _ => [] end);
     Password := Spec.field_text EmptyString "password"
                   (match n with Yaml.MappingNode fields => fields | _ => [] end) |}
  = AdGuard (Spec.config_of
               (Yaml.MappingNode [("adguard", n)])).
Proof. by destruct n as [[] text|fields|]. Qed.

(** The pairs of a well-formed document set [AdGuard] from the value of
    the key [adguard], and raise no type error. *)
Lemma Config_fields_decoded (env : Env) (top : list (string * Yaml.Node))
    (out : Config) (terrors : list Yaml.Cause) :
  NoDup top.*1 →
  forallb (λ kv : string * Yaml.Node,
             if bool_decide (kv.1 = "adguard") then
               Spec.well_formed_adguard kv.2
             else true) top = true →
  AdGuard out = AdGuard zeroConfig →
  foldl (Yaml.visit (Config_field env)) (Ok (out, terrors)) top
  = Ok ({| AdGuard :=
             match Spec.entry "adguard" top with
             | Some n =>
                 AdGuard (Spec.config_of (Yaml.MappingNode [("adguard", n)]))
             | None => AdGuard zeroConfig
             end |}, terrors).
Proof.
  revert out terrors.
  induction top as [|[k v] rest IH]; intros out terrors Hnd Hok Hout.
  - destruct out. simpl in *. by subst.
  - rewrite fmap_cons in Hnd. apply NoDup_cons in Hnd as [Hk Hnd].
    simpl in Hok. apply andb_true_iff in Hok as [Hv Hok].
    simpl foldl. simpl Spec.entry. unfold Config_field at 2.
    destruct (decide (k = "adguard")) as [->|Hne].
    + rewrite bool_decide_eq_true_2 in Hv by done.
      rewrite Hout, (AdGuard_decoded _ v Hv), (adguard_of_entry v Hv).
      rewrite app_nil_r.
      clear IH. revert Hk Hok. generalize terrors.
      generalize (AdGuard (Spec.config_of (Yaml.MappingNode [("adguard", v)]))).
      clear Hnd.
      induction rest as [|[k' v'] rest IH]; intros a terrors' Hk Hok; [done|].
      rewrite fmap_cons in Hk. apply not_elem_of_cons in Hk as [Hk' Hk].
      simpl in Hok. apply andb_true_iff in Hok as [_ Hok].
      simpl foldl. unfold Config_field at 2.
      rewrite decide_False by done. rewrite app_nil_r.
      by apply IH.
    + rewrite app_nil_r. by apply IH.
Qed.

(** [Decode] on a well-formed document succeeds, with the configuration
    the document describes. *)
Lemma Decode_well_formed (env : Env) (document : Yaml.Node) :
  Spec.well_formed_config document = true →
  Yaml.Decode (yaml_TypeError env) (yaml_merge_Config env) (Config_field env)
    (Some document) zeroConfig
  = Ok (Spec.config_of document).
Proof.
  destruct document as [| top |]; try done. simpl.
  intros [Hplain Hok]%andb_true_iff.
  rewrite mapping_plain by done.
  apply andb_true_iff in Hplain as [Hnd _]. apply bool_decide_eq_true in Hnd.
  rewrite Config_fields_decoded by done.
  unfold Spec.config_of, Spec.adguard_fields.
  destruct (Spec.entry "adguard" top) as [n|] eqn:E; [|done].
  by destruct n as [[] text|fields|].
Qed.

(** What [loadConfig] refuses is what the decoder refuses: a stream
    without a document, and a value of the wrong kind. *)
Example loadConfig_refusals (env : Env) :
  value (loadConfig (Samples.with_file "config.yaml" "# empty" None env))
  = Err "EOF"
  ∧ value (loadConfig
             (Samples.with_file "config.yaml" "adguard: ..."
                (Some (Yaml.MappingNode
                         [("adguard",
                           Yaml.MappingNode
                             [("server_url", Yaml.SequenceNode [])])]))
                env))
    = Err (yaml_TypeError env
             [Yaml.CannotUnmarshal (Yaml.SequenceNode []) Yaml.StringKind]).
Proof. split; reflexivity. Qed.

(** C10, as stated, fails: a config file that is empty, or holds
    comments only, is well-formed YAML and omits every key, yet the
    decoder finds no document in it and returns [io.EOF]; loading fails
    and [main] stops with its config failure. *)
Lemma loadConfig_blank_file :
  loadConfig Cases.blank_config = ([EvOpen "config.yaml"], Err "EOF")
  ∧ main Cases.blank_config
    = ([EvOpen "config.yaml"], Fatal "Failed to load config:" "EOF").
Proof. split; reflexivity. Qed.

(** C10, amended. [loadConfig] checks nothing beyond what the decoder
    checks: for every config file that holds a document with the
    structure of the config grammar (a mapping whose keys are not
    repeated and none of which is the merge key, whose [adguard], if
    there, is null or such a mapping, and whose [server_url], [username]
    and [password], if there, are scalars), with or without these three
    keys, it opens [config.yaml] and returns the configuration of the
    document, in which every omitted key is the empty string; and [main]
    does not stop with its config failure. *)
Theorem loadConfig_no_validation (env : Env) (file : string)
    (document : Yaml.Node) :
  files env "config.yaml" = Ok file →
  yaml_parse env file = Ok (Some document) →
  Spec.well_formed_config document = true →
  loadConfig env = ([EvOpen "config.yaml"], Ok (Spec.config_of document))
  ∧ (Spec.omits "server_url" document →
     ServerURL (AdGuard (Spec.config_of document)) = EmptyString)
  ∧ (Spec.omits "username" document →
     Username (AdGuard (Spec.config_of document)) = EmptyString)
  ∧ (Spec.omits "password" document →
     Password (AdGuard (Spec.config_of document)) = EmptyString)
  ∧ (∀ err, value (main env) ≠ Fatal "Failed to load config:" err).
Proof.
  intros Hfile Hparse Hwf.
  assert (loadConfig env = ([EvOpen "config.yaml"], Ok (Spec.config_of document)))
    as Hload.
  { unfold loadConfig, call, bind, ret. rewrite Hfile.
    unfold Decoder_Decode. rewrite Hparse.
    by rewrite (Decode_well_formed env document Hwf). }
  split; [exact Hload|].
  split; [|split; [|split]].
  - unfold Spec.omits, Spec.config_of, Spec.field_text. simpl. by intros ->.
  - unfold Spec.omits, Spec.config_of, Spec.field_text. simpl. by intros ->.
  - unfold Spec.omits, Spec.config_of, Spec.field_text. simpl. by intros ->.
  - intros err. unfold main, bind, value. rewrite Hload.
    unfold ReadFile, call, ret.
    destruct (embedded env templateFS "templates/base.html") as [t|e];
      [|discriminate].
    destruct (template_Parse env t); [discriminate|].
    by destruct (echo_Start env ":8080").
Qed.

Lemma loadConfig_no_validation_witness :
  Spec.omits "username" Samples.url_only_document
  ∧ Spec.omits "password" Samples.url_only_document
  ∧ loadConfig (Samples.installed Samples.url_only_document)
    = ([EvOpen "config.yaml"],
       Ok {| AdGuard := {| ServerURL := "https://dns.example.com";
                           Username := EmptyString;
                           Password := EmptyString |} |})
  ∧ main (Samples.installed Samples.url_only_document)
    = ([EvOpen "config.yaml"; EvReadFile templateFS "templates/base.html";
        EvStart ":8080"],
       Serving ":8080"
         {| AdGuard := {| ServerURL := "https://dns.example.com";
                          Username := EmptyString;
                          Password := EmptyString |} |}).
Proof.
  split; [reflexivity|]. split; [reflexivity|]. split; [|reflexivity].
  apply (loadConfig_no_validation (Samples.installed Samples.url_only_document)
           "adguard: ..." Samples.url_only_document);
    reflexivity.
Defined.

End startup.

(** * Further properties of the program *)

(** ** The static asset server, continued *)

Section static_assets_more.

Import GoStrings Aghamon.

(** The name [serveStaticFile] looks up: [index.html] for the empty
    parameter. *)
Lemma served_name_dotdot (file : string) :
  Contains (if decide (file = EmptyString) then "index.html" else file) ".."
  = Contains file "..".
Proof. destruct (decide (file = EmptyString)) as [->|]; reflexivity. Qed.

(** The answer of [serveStaticFile], by cases on [..] and on the store. *)
Lemma serveStaticFile_cases (env : Env) (file : string) :
  let name := if decide (file = EmptyString) then "index.html" else file in
  serveStaticFile env file
  = if Contains file ".." then ([], String_ 403 "Forbidden")
    else ([EvReadFile assetFS ("assets/" +:+ name)],
          match embedded env assetFS ("assets/" +:+ name) with
          | Err _ => String_ 404 "File not found"
          | Ok data => Blob 200 (Spec.content_type_of name) data
          end).
Proof.
  intros name. unfold serveStaticFile. fold name.
  subst name. rewrite served_name_dotdot.
  destruct (Contains file ".."); [done|].
  unfold ReadFile, call, bind, ret.
  destruct (embedded env assetFS _); [|done].
  by rewrite content_type_chain.
Qed.

(** The static asset server reads nothing but one file of the asset
    store, under [assets/] and without [..] in its name; and its status
    is 403 exactly for a name with [..], 404 exactly when the store has
    no such file, 200 exactly when it has one. *)
Theorem serveStaticFile_confined (env : Env) (file : string) :
  let name := if decide (file = EmptyString) then "index.html" else file in
  (∀ ev, ev ∈ trace (serveStaticFile env file) →
     ev = EvReadFile assetFS ("assets/" +:+ name)
     ∧ ¬ (∃ a b, name = a +:+ ".." +:+ b))
  ∧ (length (trace (serveStaticFile env file)) ≤ 1)%nat
  ∧ (Observe.code_of (value (serveStaticFile env file)) = 403
     ↔ ∃ a b, file = a +:+ ".." +:+ b)
  ∧ (Observe.code_of (value (serveStaticFile env file)) = 404
     ↔ (¬ ∃ a b, file = a +:+ ".." +:+ b)
       ∧ ∃ err, embedded env assetFS ("assets/" +:+ name) = Err err)
  ∧ (Observe.code_of (value (serveStaticFile env file)) = 200
     ↔ (¬ ∃ a b, file = a +:+ ".." +:+ b)
       ∧ ∃ data, embedded env assetFS ("assets/" +:+ name) = Ok data).
Proof.
  intros name. rewrite (serveStaticFile_cases env file). fold name.
  pose proof (Contains_spec file "..") as Hspec.
  pose proof (Contains_spec name "..") as Hname.
  assert (Contains name ".." = Contains file "..") as Heq
    by apply served_name_dotdot.
  destruct (Contains file "..") eqn:E.
  - split; [intros ev Hin; by apply elem_of_nil in Hin|].
    split; [simpl; lia|].
    assert (∃ a b, file = a +:+ ".." +:+ b) as Hdd by (by apply Hspec).
    simpl. repeat split; try done; intros []; done.
  - assert (¬ ∃ a b, file = a +:+ ".." +:+ b) as Hdd.
    { intros H. apply Hspec in H. discriminate H. }
    assert (¬ ∃ a b, name = a +:+ ".." +:+ b) as Hnn.
    { intros H. apply Hname in H. rewrite Heq in H. discriminate H. }
    split.
    { intros ev Hin. apply list_elem_of_In in Hin. simpl in Hin.
      destruct Hin as [<-|[]]. by split. }
    split; [simpl; lia|].
    destruct (embedded env assetFS ("assets/" +:+ name)) as [data|err];
      simpl; repeat split; try done; try (by eauto);
      try (intros H; exfalso; by apply Hdd);
      try (intros [_ [x Hx]]; discriminate Hx).
Qed.

(** Two strings that end alike: tails of the same length are equal. *)
Lemma app_tail_eq (a x b y : string) :
  a +:+ x = b +:+ y → String.length x = String.length y → x = y.
Proof.
  intros H Hlen.
  assert (String.length a = String.length b) as Hab.
  { apply (f_equal String.length) in H. rewrite !str_length_app in H. lia. }
  rewrite <- (slice_from_app a x), H, Hab. apply slice_from_app.
Qed.

(** A name does not end with a suffix whose tail differs from the tail
    of the same length of the name. *)
Lemma HasSuffix_mismatch (stem pre1 t1 pre2 t2 : string) :
  String.length t1 = String.length t2 → t1 ≠ t2 →
  HasSuffix (stem +:+ pre1 +:+ t1) (pre2 +:+ t2) = false.
Proof.
  intros Hlen Hne. destruct (HasSuffix _ _) eqn:E; [|done].
  apply HasSuffix_spec in E as [a E].
  rewrite <- !str_app_assoc in E. by apply app_tail_eq in E.
Qed.

Lemma HasSuffix_here (stem ext : string) : HasSuffix (stem +:+ ext) ext = true.
Proof. apply HasSuffix_spec. by exists stem. Qed.

(** [ext] is not the suffix [suf]: their tails [t1], [t2] of the same
    length differ. *)
Local Ltac mismatch stem ext suf pre1 t1 pre2 t2 :=
  let H := fresh in
  assert (HasSuffix (stem +:+ ext) suf = false) as H
    by exact (HasSuffix_mismatch stem pre1 t1 pre2 t2 eq_refl ltac:(done));
  rewrite H; clear H.

(** The extension alone decides the content type, whatever comes
    before it. *)
Lemma content_type_of_extension (stem : string) :
  Spec.content_type_of (stem +:+ ".png") = "image/png"
  ∧ Spec.content_type_of (stem +:+ ".jpg") = "image/jpeg"
  ∧ Spec.content_type_of (stem +:+ ".jpeg") = "image/jpeg"
  ∧ Spec.content_type_of (stem +:+ ".css") = "text/css"
  ∧ Spec.content_type_of (stem +:+ ".js") = "application/javascript".
Proof.
  unfold Spec.content_type_of, Spec.extension_types. cbn [find fst snd].
  repeat split.
  - by rewrite HasSuffix_here.
  - mismatch stem ".jpg" ".png" EmptyString ".jpg" EmptyString ".png".
    by rewrite HasSuffix_here.
  - mismatch stem ".jpeg" ".png" "." "jpeg" EmptyString ".png".
    mismatch stem ".jpeg" ".jpg" "." "jpeg" EmptyString ".jpg".
    by rewrite HasSuffix_here.
  - mismatch stem ".css" ".png" EmptyString ".css" EmptyString ".png".
    mismatch stem ".css" ".jpg" EmptyString ".css" EmptyString ".jpg".
    mismatch stem ".css" ".jpeg" EmptyString ".css" "." "jpeg".
    by rewrite HasSuffix_here.
  - mismatch stem ".js" ".png" EmptyString ".js" "." "png".
    mismatch stem ".js" ".jpg" EmptyString ".js" "." "jpg".
    mismatch stem ".js" ".jpeg" EmptyString ".js" ".j" "peg".
    mismatch stem ".js" ".css" EmptyString ".js" "." "css".
    by rewrite HasSuffix_here.
Qed.

(** A file of the store whose name has no [..] is served with the
    content type of its extension, whatever the rest of the name:
    [image/png] for [.png], [image/jpeg] for [.jpg] and [.jpeg],
    [text/css] for [.css], [application/javascript] for [.js]. *)
Theorem serveStaticFile_by_extension (env : Env) (stem ext : string)
    (data : string) :
  ext ∈ [".png"; ".jpg"; ".jpeg"; ".css"; ".js"] →
  (¬ ∃ a b, stem +:+ ext = a +:+ ".." +:+ b) →
  embedded env assetFS ("assets/" +:+ stem +:+ ext) = Ok data →
  ∃ contentType,
    (ext, contentType) ∈ Spec.extension_types
    ∧ serveStaticFile env (stem +:+ ext)
      = ([EvReadFile assetFS ("assets/" +:+ stem +:+ ext)],
         Blob 200 contentType data).
Proof.
  intros Hext Hdd Hdata.
  assert (stem +:+ ext ≠ EmptyString) as Hne.
  { intros H. apply (f_equal String.length) in H.
    rewrite str_length_app in H. apply list_elem_of_In in Hext.
    simpl in Hext. destruct Hext as [<-|[<-|[<-|[<-|[<-|[]]]]]];
      simpl in H; lia. }
  assert (Contains (stem +:+ ext) ".." = false) as Hno.
  { destruct (Contains _ _) eqn:E; [|done]. by apply Contains_spec in E. }
  exists (Spec.content_type_of (stem +:+ ext)). split.
  - destruct (content_type_of_extension stem) as (H1 & H2 & H3 & H4 & H5).
    apply list_elem_of_In in Hext. simpl in Hext.
    destruct Hext as [<-|[<-|[<-|[<-|[<-|[]]]]]];
      rewrite ?H1, ?H2, ?H3, ?H4, ?H5; apply list_elem_of_In; simpl; tauto.
  - rewrite serveStaticFile_cases, Hno, decide_False by done.
    by rewrite Hdata.
Qed.

Lemma serveStaticFile_by_extension_witness :
  ∃ contentType,
    (".jpeg", contentType) ∈ Spec.extension_types
    ∧ serveStaticFile
        (Samples.with_embedded Samples.every_file Samples.offline)
        "img/photo.final.jpeg"
      = ([EvReadFile assetFS "assets/img/photo.final.jpeg"],
         Blob 200 contentType "secret").
Proof.
  apply (serveStaticFile_by_extension
           (Samples.with_embedded Samples.every_file Samples.offline)
           "img/photo.final" ".jpeg" "secret").
  - apply list_elem_of_In. simpl. tauto.
  - intros (a & b & E). apply (f_equal (λ s, Contains s "..")) in E.
    rewrite (proj2 (Contains_spec (a +:+ ".." +:+ b) "..")) in E by eauto.
    vm_compute in E. discriminate E.
  - reflexivity.
Defined.

End static_assets_more.

(** ** The appliance client, continued *)

Section appliance_client_more.

Import GoStrings Aghamon.

Lemma answer_of_Ok {A : Type} (decode : string → result A)
    (sent : result HTTPResponse) (v : A) :
  Spec.answer_of decode sent = Ok v
  ↔ ∃ body, sent = Ok {| Body := Ok body |} ∧ decode body = Ok v.
Proof.
  unfold Spec.answer_of. split.
  - destruct sent as [[[body|err]]|err]; try done. eauto.
  - intros (body & -> & H). simpl. exact H.
Qed.

(** A fetch succeeds exactly when each of its steps does: the URL is
    accepted, the appliance answers the request, the body is read and
    the JSON decoder accepts it; the value returned is then the decoded
    one, as it is.  Nothing is looked at in the answer but its body. *)
Theorem fetch_succeeds_iff (env : Env) (config : Config) :
  (∀ clientsResponse,
     value (fetchClients env config) = Ok clientsResponse
     ↔ (∃ req, NewRequest env "GET"
                 (ServerURL (AdGuard config) +:+ "/control/clients") = Ok req)
       ∧ ∃ body,
           roundTrip env (Spec.api_request config "clients")
           = Ok {| Body := Ok body |}
           ∧ json_Unmarshal_clients env body = Ok clientsResponse)
  ∧ (∀ statsResponse,
       value (fetchStats env config) = Ok statsResponse
       ↔ (∃ req, NewRequest env "GET"
                   (ServerURL (AdGuard config) +:+ "/control/stats") = Ok req)
         ∧ ∃ body,
             roundTrip env (Spec.api_request config "stats")
             = Ok {| Body := Ok body |}
             ∧ json_Unmarshal_stats env body = Ok statsResponse).
Proof.
  split; intros v.
  - rewrite fetchClients_eq.
    destruct (NewRequest env "GET" _) as [req|err]; unfold value; simpl.
    + rewrite answer_of_Ok. split; [intros H; split; eauto|by intros [_ H]].
    + split; [done|]. by intros [[req Hreq] _].
  - rewrite fetchStats_eq.
    destruct (NewRequest env "GET" _) as [req|err]; unfold value; simpl.
    + rewrite answer_of_Ok. split; [intros H; split; eauto|by intros [_ H]].
    + split; [done|]. by intros [[req Hreq] _].
Qed.

(** A page costs at most one call of the HTTP client, and the same one
    on every view: the calls a handler makes are those of its fetch, so
    it calls [http.Client.Do] once, on the request of the specification,
    or not at all; [/stats] and [/upstreams] hand the client the same
    request; the home page calls nothing.  No handler opens or reads a
    file.  (What the client sends for one call, the requests of a
    redirect included, is not the program's doing.) *)
Theorem handlers_call_client_once (env : Env) (config : Config) :
  trace (clientsHandler env config) = trace (fetchClients env config)
  ∧ trace (statsHandler env config) = trace (fetchStats env config)
  ∧ trace (upstreamsHandler env config) = trace (fetchStats env config)
  ∧ trace homeHandler = []
  ∧ (∀ ev, ev ∈ trace (clientsHandler env config) →
       ev = EvDo (Spec.api_request config "clients"))
  ∧ (∀ ev, ev ∈ trace (statsHandler env config)
             ++ trace (upstreamsHandler env config) →
       ev = EvDo (Spec.api_request config "stats"))
  ∧ (length (trace (clientsHandler env config)) ≤ 1)%nat
  ∧ (length (trace (statsHandler env config)) ≤ 1)%nat
  ∧ (length (trace (upstreamsHandler env config)) ≤ 1)%nat.
Proof.
  assert (trace (clientsHandler env config) = trace (fetchClients env config))
    as Hc.
  { unfold clientsHandler. rewrite trace_bind.
    destruct (value (fetchClients env config)); apply app_nil_r. }
  assert (trace (statsHandler env config) = trace (fetchStats env config))
    as Hs.
  { unfold statsHandler. rewrite trace_bind.
    destruct (value (fetchStats env config)); apply app_nil_r. }
  assert (trace (upstreamsHandler env config) = trace (fetchStats env config))
    as Hu.
  { unfold upstreamsHandler. rewrite trace_bind.
    destruct (value (fetchStats env config)); apply app_nil_r. }
  rewrite Hc, Hs, Hu, fetchClients_eq, fetchStats_eq.
  split; [done|]. split; [done|]. split; [done|]. split; [done|].
  destruct (NewRequest env "GET" (_ +:+ "/control/clients")) as [r1|e1];
    destruct (NewRequest env "GET" (_ +:+ "/control/stats")) as [r2|e2];
    unfold trace; simpl; repeat split; try lia;
    intros ev Hin; apply list_elem_of_In in Hin; simpl in Hin;
    intuition congruence.
Qed.

(** A control byte of the server URL, before any [#], is still there
    once the path is appended. *)
Lemma control_byte_stays (s t : string) :
  stringContainsCTLByte (before_fragment s) = true →
  stringContainsCTLByte (before_fragment (s +:+ t)) = true.
Proof.
  induction s as [|c s IH]; [done|]. rewrite str_app_cons. simpl.
  destruct (decide (c = "#"%char)); [done|]. simpl.
  destruct ((byte_value c <? 32) || (byte_value c =? 127)); [done|].
  simpl. apply IH.
Qed.

(** A server URL with a control byte (a stray line feed, a tab) before
    any [#] stops every fetch before the client is called, and the three
    pages answer 500 with the error of [url.Parse]: the word [parse],
    the URL up to its fragment between quotes, and the cause. *)
Theorem control_byte_blocks_fetch (env : Env) (config : Config) :
  stringContainsCTLByte (before_fragment (ServerURL (AdGuard config))) = true →
  let refused path :=
    "parse "
    +:+ Strconv.Quote (strconv_Quote env)
          (before_fragment (ServerURL (AdGuard config) +:+ path))
    +:+ ": net/url: invalid control character in URL" in
  clientsHandler env config
  = ([], String_ 500 ("Error fetching clients: "
                      +:+ refused "/control/clients"))
  ∧ statsHandler env config
    = ([], String_ 500 ("Error fetching stats: " +:+ refused "/control/stats"))
  ∧ upstreamsHandler env config
    = ([], String_ 500 ("Error fetching upstreams: "
                        +:+ refused "/control/stats")).
Proof.
  intros Hctl refused.
  assert (fetchClients env config = ([], Err (refused "/control/clients")))
    as Hc.
  { rewrite fetchClients_eq. unfold NewRequest. cbv zeta.
    by rewrite (control_byte_stays _ "/control/clients"). }
  assert (fetchStats env config = ([], Err (refused "/control/stats"))) as Hs.
  { rewrite fetchStats_eq. unfold NewRequest. cbv zeta.
    by rewrite (control_byte_stays _ "/control/stats"). }
  unfold clientsHandler, statsHandler, upstreamsHandler.
  rewrite Hc, Hs. unfold bind, ret. simpl.
  by rewrite !str_app_nil_r.
Qed.

Lemma control_byte_blocks_fetch_witness :
  clientsHandler Samples.answering Samples.newline_config
  = ([], String_ 500
           (lit "Error fetching clients: parse 'https://dns.example.com\n/control/clients': net/url: invalid control character in URL")).
Proof.
  apply (control_byte_blocks_fetch Samples.answering Samples.newline_config).
  reflexivity.
Defined.

(** *** The credentials *)

Lemma Contains_cons_false (c : ascii) (s sub : string) :
  Contains (String c s) sub = false → Contains s sub = false.
Proof.
  intros H. destruct (Contains s sub) eqn:E; [|done].
  apply Contains_spec in E as (a & b & ->).
  rewrite <- H. symmetry. apply Contains_spec.
  exists (String c a), b. by rewrite str_app_cons.
Qed.

Lemma Contains_head_false (c : ascii) (s : string) :
  Contains (String c s) (String c EmptyString) = false → False.
Proof.
  intros H. assert (Contains (String c s) (String c EmptyString) = true) as H'.
  { apply Contains_spec. by exists EmptyString, s. }
  congruence.
Qed.

(** A text is cut at its first colon in one way only. *)
Lemma colon_split (u u' p p' : string) :
  Contains u ":" = false → Contains u' ":" = false →
  u +:+ ":" +:+ p = u' +:+ ":" +:+ p' → u = u' ∧ p = p'.
Proof.
  revert u'. induction u as [|c u IH]; intros u' Hu Hu' H.
  - destruct u' as [|c' u']; [by injection H|].
    rewrite str_app_nil_l, !str_app_cons in H. injection H as <- _.
    by apply Contains_head_false in Hu'.
  - destruct u' as [|c' u'].
    + rewrite str_app_nil_l, !str_app_cons in H. injection H as -> _.
      by apply Contains_head_false in Hu.
    + rewrite !str_app_cons in H. injection H as <- H.
      destruct (IH u') as [-> ->]; [by eapply Contains_cons_false..|done|done].
Qed.

(** The credentials can be read back from what [getBasicAuth] returns:
    decoding gives [username:password], and when the user names hold no
    colon, two results are equal exactly when the user names are equal
    and the passwords are equal. *)
Theorem getBasicAuth_inj (username password username' password' : string) :
  Contains username ":" = false → Contains username' ":" = false →
  Base64.DecodeString (getBasicAuth username password)
  = Some (username +:+ ":" +:+ password)
  ∧ (getBasicAuth username password = getBasicAuth username' password'
     ↔ username = username' ∧ password = password').
Proof.
  intros Hu Hu'. split; [apply DecodeString_EncodeToString|].
  split; [|by intros [-> ->]].
  intros H. unfold getBasicAuth in H.
  apply EncodeToString_inj in H. by apply colon_split.
Qed.

(** Without the condition on the colon the result does not tell the
    credentials apart. *)
Example getBasicAuth_colon :
  getBasicAuth "a:b" "c" = getBasicAuth "a" "b:c".
Proof. reflexivity. Qed.

Lemma getBasicAuth_inj_witness :
  Contains "admin" ":" = false
  ∧ getBasicAuth "admin" "s3:cret" ≠ getBasicAuth "admin" "s3:cred".
Proof.
  split; [reflexivity|]. intros H.
  apply (getBasicAuth_inj "admin" "s3:cret" "admin" "s3:cred") in H;
    [|reflexivity..].
  destruct H as [_ H]. discriminate H.
Defined.

(** *** The text of the credentials header *)

Lemma get_bytes (n : nat) (s : string) (c : ascii) :
  String.get n s = Some c → c ∈ Observe.bytes s.
Proof.
  revert n. induction s as [|d s IH]; intros n; [done|].
  destruct n as [|n]; simpl.
  - intros [= ->]. apply list_elem_of_here.
  - intros H. apply list_elem_of_further. by eapply IH.
Qed.

Lemma encode_char (i : Z) : Observe.base64_char (Base64.encode i).
Proof.
  unfold Observe.base64_char, Base64.encode.
  destruct (String.get (Z.to_nat i) Base64.encodeStd) as [c|] eqn:E.
  - left. by eapply get_bytes.
  - by right.
Qed.

Lemma base64_char_no_control (c : ascii) :
  Observe.base64_char c → (byte_value c <? 32) || (byte_value c =? 127) = false.
Proof.
  assert (forallb (λ c, negb ((byte_value c <? 32) || (byte_value c =? 127)))
            (Observe.bytes Base64.encodeStd) = true) as Hall by reflexivity.
  rewrite forallb_forall in Hall.
  intros [Hin| ->]; [|reflexivity].
  apply list_elem_of_In, Hall in Hin. by destruct (_ || _).
Qed.

Lemma no_control_bytes (s : string) :
  Forall Observe.base64_char (Observe.bytes s) → stringContainsCTLByte s = false.
Proof.
  induction s as [|c s IH]; [done|]. simpl.
  intros [Hc Hs]%Forall_cons. by rewrite base64_char_no_control, IH.
Qed.

Lemma EncodeToString_chars (src : string) :
  Forall Observe.base64_char (Observe.bytes (Base64.EncodeToString src)).
Proof.
  induction src as [|a|a b|a b c rest IH] using string_ind3;
    cbn [Base64.EncodeToString Observe.bytes]; cbv zeta.
  - constructor.
  - repeat (constructor; [first [apply encode_char|by right]|]).
    constructor.
  - repeat (constructor; [first [apply encode_char|by right]|]).
    constructor.
  - repeat (constructor; [apply encode_char|]). exact IH.
Qed.

Lemma EncodeToString_length (src : string) :
  String.length (Base64.EncodeToString src)
  = (4 * ((String.length src + 2) / 3))%nat.
Proof.
  induction src as [|a|a b|a b c rest IH] using string_ind3; try reflexivity.
  cbn [Base64.EncodeToString String.length]. rewrite IH.
  replace (S (S (S (String.length rest))) + 2)%nat
    with (1 * 3 + (String.length rest + 2))%nat by lia.
  rewrite Nat.div_add_l by done. lia.
Qed.

(** Whatever the credentials hold (a line feed, a colon, any byte), the
    text [getBasicAuth] returns is made of the letters, digits, [+], [/]
    and [=] of base64, four for every three bytes of [username:password]
    rounded up; so the value of the [Authorization] header has no
    control byte. *)
Theorem getBasicAuth_text (username password : string) :
  Forall Observe.base64_char (Observe.bytes (getBasicAuth username password))
  ∧ String.length (getBasicAuth username password)
    = (4 * ((String.length username + String.length password + 3) / 3))%nat
  ∧ stringContainsCTLByte ("Basic " +:+ getBasicAuth username password)
    = false.
Proof.
  unfold getBasicAuth. split; [apply EncodeToString_chars|]. split.
  - rewrite EncodeToString_length, !str_length_app.
    change (String.length ":") with 1%nat.
    by replace (String.length username + (1 + String.length password) + 2)%nat
      with (String.length username + String.length password + 3)%nat by lia.
  - change ("Basic " +:+ ?s) with
      (String "B" (String "a" (String "s" (String "i" (String "c" (String " " s)))))).
    simpl. apply no_control_bytes, EncodeToString_chars.
Qed.

End appliance_client_more.

(** ** The view renderer, continued *)

Section view_renderer_more.

Import GoStrings Aghamon.

(** *** Occurrences *)

Lemma Contains_here (x t : string) : Contains (x +:+ t) x = true.
Proof. apply Contains_spec. by exists EmptyString, t. Qed.

Lemma Contains_app_r (s t x : string) :
  Contains t x = true → Contains (s +:+ t) x = true.
Proof.
  intros (a & b & ->)%Contains_spec. apply Contains_spec.
  exists (s +:+ a), b. by rewrite str_app_assoc.
Qed.

Lemma Contains_app_l (s t x : string) :
  Contains s x = true → Contains (s +:+ t) x = true.
Proof.
  intros (a & b & ->)%Contains_spec. apply Contains_spec.
  exists a, (b +:+ t). by rewrite !str_app_assoc.
Qed.

Lemma Contains_rows_text (rows : list string) (r x : string) :
  r ∈ rows → Contains r x = true → Contains (Spec.rows_text rows) x = true.
Proof.
  intros Hin Hx. induction rows as [|r' rows IH]; [by apply elem_of_nil in Hin|].
  simpl. apply elem_of_cons in Hin as [<-|Hin].
  - by apply Contains_app_l.
  - by apply Contains_app_r, IH.
Qed.

(** Find [x] in a text built by appending, left to right. *)
Local Ltac occurs :=
  repeat first [apply Contains_here | apply Contains_app_r].

(** *** The clients table *)

(** The row of a client, cell by cell. *)
Lemma clientRow_cells (client : Client) :
  clientRow client
  = Observe.nl +:+ "      <tr>"
    +:+ Observe.nl +:+ "        " +:+ Observe.cell (IP client)
    +:+ Observe.nl +:+ "        " +:+ Observe.cell (Name client)
    +:+ Observe.nl +:+ "        " +:+ Observe.cell (Source client)
    +:+ Observe.nl +:+ "        " +:+ Observe.cell (Country (WhoisInfo client))
    +:+ Observe.nl +:+ "        " +:+ Observe.cell (OrgName (WhoisInfo client))
    +:+ Observe.nl +:+ "        " +:+ Observe.cell (City (WhoisInfo client))
    +:+ Observe.nl +:+ "      </tr>".
Proof. unfold Observe.cell. rewrite !str_app_assoc. reflexivity. Qed.

(** Every client of the input has its row in the table, and each of
    its six fields stands in a cell of its own exactly as the appliance
    sent it: no byte of it is escaped or dropped, whatever it is. *)
Theorem clients_table_verbatim (clients : list Client) (client : Client) :
  client ∈ clients →
  Contains (generateHTMLTable clients) (clientRow client) = true
  ∧ Contains (generateHTMLTable clients) (Observe.cell (IP client)) = true
  ∧ Contains (generateHTMLTable clients) (Observe.cell (Name client)) = true
  ∧ Contains (generateHTMLTable clients) (Observe.cell (Source client)) = true
  ∧ Contains (generateHTMLTable clients)
      (Observe.cell (Country (WhoisInfo client))) = true
  ∧ Contains (generateHTMLTable clients)
      (Observe.cell (OrgName (WhoisInfo client))) = true
  ∧ Contains (generateHTMLTable clients)
      (Observe.cell (City (WhoisInfo client))) = true.
Proof.
  intros Hin.
  assert (∀ x, Contains (clientRow client) x = true →
               Contains (generateHTMLTable clients) x = true) as Hrow.
  { intros x Hx. rewrite generateHTMLTable_rows.
    apply Contains_app_r, Contains_app_l.
    apply (Contains_rows_text _ (clientRow client)); [|done].
    apply list_elem_of_fmap. by exists client. }
  split.
  { apply Hrow. rewrite <- (str_app_nil_r (clientRow client)) at 1.
    apply Contains_here. }
  repeat split; apply Hrow; rewrite clientRow_cells; occurs.
Qed.

Lemma clients_table_verbatim_witness :
  Contains (generateHTMLTable [Samples.laptop; Cases.intruder])
    "<td><script>alert(1)</script></td>" = true.
Proof.
  apply (clients_table_verbatim [Samples.laptop; Cases.intruder]
           Cases.intruder).
  apply list_elem_of_In. simpl. tauto.
Defined.

(** The clients page, piece by piece. *)
Lemma generateClientsContent_text (totalClients : Z) (clientsTable : string) :
  generateClientsContent totalClients clientsTable
  = lit "<div class='header-section'>
    <h1>DNS Clients</h1>
    <p>" +:+ ("Total clients: " +:+ pretty totalClients +:+ "</p>")
    +:+ "
</div>
" +:+ clientsTable.
Proof.
  rewrite !str_app_assoc. unfold generateClientsContent. simpl.
  by rewrite str_app_nil_r.
Qed.



(** *** The ranked tables *)






(** There are as many rows as items that are not empty. *)
Lemma rows_from_count {V : Type} (start : nat → nat)
    (data : list (gmap string V)) (i : nat) :
  length (range_from i data (collect_row start) [])
  = length (Observe.with_entry data).
Proof.
  unfold Observe.with_entry.
  revert i. induction data as [|item data IH]; intros i; [done|].
  rewrite collect_from_cons, length_app, IH.
  destruct (decide (item = ∅)) as [->|Hne].
  - rewrite first_entry_empty, filter_cons_False by (by intros H). done.
  - destruct (first_entry_nonempty (start i) item Hne) as (key & value & ->).
    by rewrite filter_cons_True.
Qed.




(** A list without entries, be it empty or made of empty items, gives
    the table without rows: the title, the head with the value label
    and the closing, whatever the iteration order. *)
Theorem ranked_tables_without_entries (start : nat → nat)
    (title valueLabel : string)
    (data : list (gmap string Z)) (times : list (gmap string float)) :
  Forall (λ item, item = ∅) data → Forall (λ item, item = ∅) times →
  generateStatsTable start title data valueLabel
  = Fmt.Sprintf titleFormat [Fmt.ArgString title]
    +:+ (statsTableHead1 +:+ valueLabel +:+ statsTableHead2) +:+ tableFoot
  ∧ generateUpstreamsTable start title times valueLabel
    = Fmt.Sprintf titleFormat [Fmt.ArgString title]
      +:+ (upstreamsTableHead1 +:+ valueLabel +:+ upstreamsTableHead2)
      +:+ tableFoot.
Proof.
  intros Hdata Htimes.
  assert (∀ V (l : list (gmap string V)),
            Forall (λ item, item = ∅) l → ranked_rows start l = []) as Hnone.
  { intros V l Hl. apply length_zero_iff_nil.
    change (ranked_rows start l)
      with (range_from 0 l (collect_row start) []).
    rewrite rows_from_count. unfold Observe.with_entry.
    apply length_zero_iff_nil.
    induction Hl as [|item l -> _ IH]; [done|].
    by rewrite filter_cons_False by (by intros H). }
  split.
  - by rewrite generateStatsTable_rows, Hnone.
  - by rewrite generateUpstreamsTable_rows, Hnone.
Qed.

Lemma ranked_tables_without_entries_witness :
  generateStatsTable (λ _, 3%nat) "Top Clients" [∅; ∅] "Count"
  = generateStatsTable (λ _, 0%nat) "Top Clients" [] "Count".
Proof.
  destruct (ranked_tables_without_entries (λ _, 3%nat) "Top Clients" "Count"
              [∅; ∅] [])
    as (H & _); [by repeat constructor..|].
  rewrite H. reflexivity.
Defined.

(** *** The statistics and upstreams pages *)

(** The statistics page, piece by piece. *)
Lemma generateStatsContent_text (timeUnits : string)
    (numDNSQueries numBlockedFiltering : Z) (avgProcessingTime : float)
    (topDomainsTable topClientsTable topBlockedTable : string) :
  generateStatsContent timeUnits numDNSQueries numBlockedFiltering
    avgProcessingTime topDomainsTable topClientsTable topBlockedTable
  = lit "<div class='header-section'>
    <h1>DNS Statistics</h1>
</div>

<div class='summary'>
    <p><strong>Time Period:</strong> "
    +:+ ("Last 24 " +:+ timeUnits +:+ "</p>")
    +:+ "
    <p><strong>"
    +:+ ("Total DNS Queries:</strong> " +:+ pretty numDNSQueries +:+ "</p>")
    +:+ "
    <p><strong>"
    +:+ ("Total Blocked Queries:</strong> " +:+ pretty numBlockedFiltering
         +:+ "</p>")
    +:+ "
    <p><strong>"
    +:+ ("Average Processing Time:</strong> "
         +:+ Strconv.FormatFloat6 avgProcessingTime +:+ " seconds</p>")
    +:+ "
</div>

" +:+ (topDomainsTable +:+ Observe.nl +:+ topClientsTable +:+ Observe.nl
       +:+ topBlockedTable).
Proof.
  rewrite !str_app_assoc. unfold generateStatsContent. simpl.
  by rewrite str_app_nil_r.
Qed.

(** The upstreams page, piece by piece. *)
Lemma generateUpstreamsContent_text
    (topUpstreamsTable topUpstreamsTimeTable : string) :
  generateUpstreamsContent topUpstreamsTable topUpstreamsTimeTable
  = lit "<div class='header-section'>
    <h1>DNS Upstreams</h1>
</div>

" +:+ (topUpstreamsTable +:+ Observe.nl +:+ topUpstreamsTimeTable).
Proof.
  unfold generateUpstreamsContent. simpl.
  by rewrite str_app_nil_r.
Qed.

(** What the statistics and upstreams pages show of an answer of the
    appliance: the statistics page holds the time unit, the two totals
    and the average processing time with six decimals, and ends with
    the tables of the queried domains, the clients and the blocked
    domains, in this order; the upstreams page is its heading followed
    by the table of the response counts and the table of the response
    times, and nothing else of the answer. *)
Theorem stats_pages_layout (env : Env) (config : Config)
    (statsResponse : StatsResponse) :
  value (fetchStats env config) = Ok statsResponse →
  (∃ content,
     value (statsHandler env config)
     = Render 200 "base.html" "DNS Statistics - Aghamon" content
     ∧ Contains content
         ("Last 24 " +:+ TimeUnits statsResponse +:+ "</p>") = true
     ∧ Contains content
         ("Total DNS Queries:</strong> "
          +:+ pretty (NumDNSQueries statsResponse) +:+ "</p>") = true
     ∧ Contains content
         ("Total Blocked Queries:</strong> "
          +:+ pretty (NumBlockedFiltering statsResponse) +:+ "</p>") = true
     ∧ Contains content
         ("Average Processing Time:</strong> "
          +:+ Strconv.FormatFloat6 (AvgProcessingTime statsResponse)
          +:+ " seconds</p>") = true
     ∧ HasSuffix content
         (generateStatsTable (map_start env 0) "Top Queried Domains"
            (TopQueriedDomains statsResponse) "Count"
          +:+ Observe.nl
          +:+ generateStatsTable (map_start env 1) "Top Clients"
                (TopClients statsResponse) "Count"
          +:+ Observe.nl
          +:+ generateStatsTable (map_start env 2) "Top Blocked Domains"
                (TopBlockedDomains statsResponse) "Count") = true)
  ∧ value (upstreamsHandler env config)
    = Render 200 "base.html" "DNS Upstreams - Aghamon"
        (lit "<div class='header-section'>
    <h1>DNS Upstreams</h1>
</div>

" +:+ generateStatsTable (map_start env 3) "Top Upstreams by Response Count"
        (TopUpstreamsResponses statsResponse) "Count"
  +:+ Observe.nl
  +:+ generateUpstreamsTable (map_start env 4)
        "Top Upstreams by Average Response Time"
        (TopUpstreamsAvgTime statsResponse) "Time").
Proof.
  intros Hfetch. split.
  - eexists. split.
    { unfold statsHandler. rewrite value_bind, Hfetch. reflexivity. }
    rewrite generateStatsContent_text.
    split; [|split; [|split; [|split]]].
    + occurs.
    + occurs.
    + occurs.
    + occurs.
    + apply HasSuffix_spec. eexists. rewrite <- !str_app_assoc. reflexivity.
  - unfold upstreamsHandler. rewrite value_bind, Hfetch. simpl.
    by rewrite generateUpstreamsContent_text.
Qed.

Lemma stats_pages_layout_witness :
  ∃ content,
    value (statsHandler Cases.measured Samples.example_config)
    = Render 200 "base.html" "DNS Statistics - Aghamon" content
    ∧ Contains content "Total DNS Queries:</strong> 49</p>" = true
    ∧ Contains content
        "Average Processing Time:</strong> 0.062500 seconds</p>" = true.
Proof.
  destruct (proj1 (stats_pages_layout Cases.measured Samples.example_config
                     Cases.quiet_day eq_refl))
    as (content & Hpage & _ & Hqueries & _ & Htime & _).
  exists content. split; [exact Hpage|]. split; [exact Hqueries|exact Htime].
Defined.

End view_renderer_more.

(** ** The start of the process, when it fails *)

Section startup_more.

Import Aghamon.

(** Type errors, once raised, stay, and so does an error that stops
    the decoder. *)
Lemma terrors_stay {T : Type} (field : string → Yaml.Node → T → Yaml.decoding T)
    (Content : list (string * Yaml.Node)) (st : Yaml.decoding T) :
  (∀ v, st ≠ Ok (v, [])) →
  ∀ v, foldl (Yaml.visit field) st Content ≠ Ok (v, []).
Proof.
  revert st. induction Content as [|kv rest IH]; intros st Hst; [done|].
  simpl. apply IH. intros v. unfold Yaml.visit.
  destruct st as [[out terrors]|err]; [|done].
  destruct (field kv.1 kv.2 out) as [[out' terrors']|err]; [|done].
  intros [= -> [-> _]%app_eq_nil]. by apply (Hst out).
Qed.

(** A pair that raises a type error makes the mapping raise one. *)
Lemma terrors_raised {T : Type} (field : string → Yaml.Node → T → Yaml.decoding T)
    (Content : list (string * Yaml.Node)) (st : Yaml.decoding T)
    (kv : string * Yaml.Node) :
  kv ∈ Content → (∀ out v, field kv.1 kv.2 out ≠ Ok (v, [])) →
  ∀ v, foldl (Yaml.visit field) st Content ≠ Ok (v, []).
Proof.
  intros Hin Hkv. revert st.
  induction Content as [|kv' rest IH]; intros st; [by apply elem_of_nil in Hin|].
  apply elem_of_cons in Hin as [<-|Hin]; simpl.
  - apply terrors_stay. intros v. unfold Yaml.visit.
    destruct st as [[out terrors]|err]; [|done].
    specialize (Hkv out).
    destruct (field kv.1 kv.2 out) as [[out' terrors']|err]; [|done].
    intros [= -> [_ ->]%app_eq_nil]. by apply (Hkv v).
  - by apply IH.
Qed.

Lemma mapping_refused {T : Type}
    (merge : list (string * Yaml.Node) → T → Yaml.decoding T)
    (field : string → Yaml.Node → T → Yaml.decoding T)
    (Content : list (string * Yaml.Node)) (out : T) :
  "<<" ∉ Content.*1 →
  (¬ NoDup Content.*1
   ∨ ∃ kv, kv ∈ Content ∧ ∀ out v, field kv.1 kv.2 out ≠ Ok (v, [])) →
  ∀ v, Yaml.mapping merge field Content out ≠ Ok (v, []).
Proof.
  unfold Yaml.mapping. intros Hmerge H.
  rewrite bool_decide_eq_false_2 by done.
  destruct H as [Hdup|(kv & Hin & Hkv)].
  - by rewrite bool_decide_eq_false_2.
  - destruct (bool_decide (NoDup Content.*1)); [|done].
    by apply (terrors_raised field Content _ kv).
Qed.

Lemma forallb_false {A : Type} (P : A → bool) (l : list A) :
  forallb P l = false → ∃ x, x ∈ l ∧ P x = false.
Proof.
  induction l as [|x l IH]; [done|]. simpl.
  intros [H|H]%andb_false_iff.
  - exists x. split; [apply list_elem_of_here|done].
  - destruct (IH H) as (y & Hy & HP). exists y.
    split; [by apply list_elem_of_further|done].
Qed.

(** A collection under one of the three keys is a type error. *)
Lemma AdGuard_field_refused (key : string) (n : Yaml.Node) :
  key ∈ Spec.config_keys → Spec.is_scalar n = false →
  ∀ out v, AdGuard_field key n out ≠ Ok (v, []).
Proof.
  intros Hkey Hn out v. unfold Spec.config_keys in Hkey.
  repeat (apply elem_of_cons in Hkey as [->|Hkey]);
    [| | |by apply elem_of_nil in Hkey];
    destruct n; done.
Qed.

Lemma plain_keys_false (content : list (string * Yaml.Node)) :
  "<<" ∉ content.*1 → Spec.plain_keys content = false →
  ¬ NoDup content.*1.
Proof.
  unfold Spec.plain_keys. intros Hmerge [H|H]%andb_false_iff.
  - by apply bool_decide_eq_false in H.
  - by apply bool_decide_eq_false in H.
Qed.

Lemma AdGuard_refused
    (merge : list (string * Yaml.Node) → AdGuardConfig
             → Yaml.decoding AdGuardConfig)
    (n : Yaml.Node) (out : AdGuardConfig) :
  (∀ fields, n = Yaml.MappingNode fields → "<<" ∉ fields.*1) →
  Spec.well_formed_adguard n = false →
  ∀ v, Yaml.unmarshal_struct merge AdGuard_field n out ≠ Ok (v, []).
Proof.
  intros Hmerge. destruct n as [[] text|fields|]; try done. simpl.
  intros [H|H]%andb_false_iff; apply mapping_refused; try by apply Hmerge.
  - left. apply plain_keys_false; [by apply Hmerge|done].
  - right. destruct (forallb_false _ _ H) as (kv & Hin & Hkv).
    exists kv. split; [done|].
    destruct (bool_decide (kv.1 ∈ Spec.config_keys)) eqn:E; [|done].
    apply bool_decide_eq_true in E. by apply AdGuard_field_refused.
Qed.

(** [Decode] refuses a mapping that is not well formed. *)
Lemma Decode_refused (env : Env) (top : list (string * Yaml.Node)) :
  "<<" ∉ top.*1 →
  (∀ fields, ("adguard", Yaml.MappingNode fields) ∈ top → "<<" ∉ fields.*1) →
  Spec.well_formed_config (Yaml.MappingNode top) = false →
  ∃ err, Yaml.Decode (yaml_TypeError env) (yaml_merge_Config env)
           (Config_field env) (Some (Yaml.MappingNode top)) zeroConfig
         = Err err.
Proof.
  intros Hmerge Hfields Hwf.
  assert (∀ v, Yaml.mapping (yaml_merge_Config env) (Config_field env) top
                 zeroConfig ≠ Ok (v, [])) as Hraised.
  { simpl in Hwf. apply andb_false_iff in Hwf as [H|H];
      apply mapping_refused; try done.
    - left. by apply plain_keys_false.
    - right. destruct (forallb_false _ _ H) as ([key n] & Hin & Hkv).
      exists (key, n). split; [done|]. intros out v. simpl in *.
      destruct (bool_decide (key = "adguard")) eqn:E; [|done].
      apply bool_decide_eq_true in E. subst key.
      unfold Config_field. rewrite decide_True by done.
      pose proof (AdGuard_refused (yaml_merge_AdGuard env) n (AdGuard out))
        as Hn.
      destruct (Yaml.unmarshal_struct (yaml_merge_AdGuard env) AdGuard_field n
                  (AdGuard out)) as [[a terrors]|err]; [|done].
      intros [= <- ->]. apply (Hn (λ fields E, Hfields fields
                                     (eq_ind _ (λ n, ("adguard", n) ∈ top)
                                        Hin _ E)) Hkv a eq_refl). }
  unfold Yaml.Decode, Yaml.unmarshal_struct.
  destruct (Yaml.mapping (yaml_merge_Config env) (Config_field env) top
              zeroConfig) as [[v [|terror terrors]]|err];
    [by destruct (Hraised v)|by eexists..].
Qed.

(** What [loadConfig] returns is its value; its trace is the opening of
    the file. *)
Lemma loadConfig_decoded (env : Env) (file : string) :
  files env "config.yaml" = Ok file →
  loadConfig env = ([EvOpen "config.yaml"], Decoder_Decode env file zeroConfig).
Proof.
  intros Hfile. unfold loadConfig, call, bind, ret. rewrite Hfile.
  by destruct (Decoder_Decode env file zeroConfig).
Qed.

(** The decoder is strict on structure: for a config file whose
    document is a mapping (without merge keys), [loadConfig] succeeds
    exactly when the document is well formed, that is when no key is
    repeated, [adguard] is a mapping or null, and [server_url],
    [username] and [password] hold no list and no mapping; in every
    other case [main] stops with its config failure after opening
    [config.yaml], without reading the template or listening. *)
Theorem loadConfig_strict (env : Env) (file : string)
    (top : list (string * Yaml.Node)) :
  files env "config.yaml" = Ok file →
  yaml_parse env file = Ok (Some (Yaml.MappingNode top)) →
  "<<" ∉ top.*1 →
  (∀ fields, ("adguard", Yaml.MappingNode fields) ∈ top → "<<" ∉ fields.*1) →
  ((∃ config, value (loadConfig env) = Ok config)
   ↔ Spec.well_formed_config (Yaml.MappingNode top) = true)
  ∧ (Spec.well_formed_config (Yaml.MappingNode top) = false →
     ∃ err, main env
            = ([EvOpen "config.yaml"], Fatal "Failed to load config:" err)).
Proof.
  intros Hfile Hparse Hmerge Hfields.
  pose proof (loadConfig_decoded env file Hfile) as Hload.
  unfold Decoder_Decode in Hload. rewrite Hparse in Hload.
  assert (Spec.well_formed_config (Yaml.MappingNode top) = false →
          ∃ err, loadConfig env = ([EvOpen "config.yaml"], Err err)) as Hno.
  { intros Hwf.
    destruct (Decode_refused env top Hmerge Hfields Hwf) as (err & E).
    exists err. by rewrite Hload, E. }
  split; [split|].
  - intros (config & Hconfig).
    destruct (Spec.well_formed_config (Yaml.MappingNode top)) eqn:Hwf; [done|].
    destruct (Hno eq_refl) as (err & E). by rewrite E in Hconfig.
  - intros Hwf. exists (Spec.config_of (Yaml.MappingNode top)).
    by rewrite Hload, (Decode_well_formed env _ Hwf).
  - intros Hwf. destruct (Hno Hwf) as (err & E). exists err.
    unfold main, bind. by rewrite E.
Qed.

Lemma loadConfig_strict_witness :
  ∃ err,
    main (Samples.installed
            (Yaml.MappingNode
               [("adguard",
                 Yaml.MappingNode
                   [("server_url", Yaml.SequenceNode [])])]))
    = ([EvOpen "config.yaml"], Fatal "Failed to load config:" err).
Proof.
  refine (proj2 (loadConfig_strict
                   (Samples.installed
                      (Yaml.MappingNode
                         [("adguard",
                           Yaml.MappingNode
                             [("server_url", Yaml.SequenceNode [])])]))
                   "adguard: ..."
                   [("adguard",
                     Yaml.MappingNode [("server_url", Yaml.SequenceNode [])])]
                   eq_refl eq_refl _ _) eq_refl).
  - rewrite list_elem_of_In. simpl. intuition congruence.
  - intros fields. rewrite !list_elem_of_In. simpl.
    intros [[= <-]|[]]. simpl. intuition congruence.
Defined.

(** Settle a statement about a trace and a value that are known. *)
Local Ltac settle :=
  rewrite ?app_nil_r; repeat split; intros;
  repeat match goal with
         | H : _ ∈ _ :: _ |- _ => apply elem_of_cons in H as [H|H]
         | H : _ ∈ [] |- _ => by apply elem_of_nil in H
         | H : _ ∧ _ |- _ => destruct H
         | H : ∃ _, _ |- _ => destruct H
         end;
  simplify_eq; rewrite ?elem_of_cons; eauto 10.

(** [main] fails fast: it calls [e.Start] exactly when the config
    loads, the embedded template is read and the template parses, and
    always for [:8080]; it then serves with the loaded configuration for
    as long as [e.Start] does not return, and stops with the error of
    [e.Start] when it returns one (the port is taken, say); a config
    failure stops it before the template is read. *)
Theorem main_starts_iff (env : Env) :
  let ready config :=
    value (loadConfig env) = Ok config
    ∧ ∃ templateContent,
        embedded env templateFS "templates/base.html" = Ok templateContent
        ∧ template_Parse env templateContent = None in
  (∀ address,
     EvStart address ∈ trace (main env)
     ↔ address = ":8080" ∧ ∃ config, ready config)
  ∧ (∀ address config,
       value (main env) = Serving address config
       ↔ address = ":8080" ∧ ready config ∧ echo_Start env ":8080" = None)
  ∧ (∀ err,
       value (main env) = Stopped err
       ↔ (∃ config, ready config) ∧ echo_Start env ":8080" = Some err)
  ∧ (∀ err,
       value (loadConfig env) = Err err →
       main env = ([EvOpen "config.yaml"], Fatal "Failed to load config:" err))
  ∧ (∀ name, EvReadFile templateFS name ∈ trace (main env) →
       name = "templates/base.html"
       ∧ ∃ config, value (loadConfig env) = Ok config).
Proof.
  intros ready. subst ready. cbv beta.
  pose proof (trace_loadConfig env) as Htrace.
  unfold main, bind, ReadFile, call, ret, value, trace in *.
  destruct (loadConfig env) as [events [config|err]]; simpl in *; subst events.
  - destruct (embedded env templateFS "templates/base.html")
      as [templateContent|err] eqn:Et; simpl.
    + destruct (template_Parse env templateContent) as [err|] eqn:Ep; simpl.
      * settle.
      * destruct (echo_Start env ":8080") as [err|] eqn:Es; simpl; settle.
    + settle.
  - settle.
Qed.

Lemma main_starts_iff_witness :
  main Cases.port_taken
  = ([EvOpen "config.yaml"; EvReadFile templateFS "templates/base.html";
      EvStart ":8080"],
     Stopped "listen tcp :8080: bind: address already in use")
  ∧ ∀ err, value (loadConfig Cases.blank_config) = Err err →
      main Cases.blank_config
      = ([EvOpen "config.yaml"], Fatal "Failed to load config:" err).
Proof.
  split; [reflexivity|].
  apply (main_starts_iff Cases.blank_config).
Defined.

End startup_more.

(** * The tables, as the pages display them *)

Section tables_displayed.

Import GoStrings Aghamon.

(** ** The rows that open in a text *)

Lemma occurrences_skip (c : ascii) (s : string) :
  c ≠ "<"%char →
  Observe.occurrences (String c s) "<tr>" = Observe.occurrences s "<tr>".
Proof. intros Hc. simpl. by rewrite decide_False. Qed.

Lemma occurrences_other_tag (x : ascii) (s : string) :
  x ≠ "t"%char →
  Observe.occurrences (String "<" (String x s)) "<tr>"
  = Observe.occurrences (String x s) "<tr>".
Proof.
  intros Hx. cbn [Observe.occurrences HasPrefix].
  rewrite decide_True by done. by rewrite decide_False.
Qed.

Lemma occurrences_other_t (y : ascii) (s : string) :
  y ≠ "r"%char →
  Observe.occurrences (String "<" (String "t" (String y s))) "<tr>"
  = Observe.occurrences (String "t" (String y s)) "<tr>".
Proof.
  intros Hy. cbn [Observe.occurrences HasPrefix].
  rewrite !decide_True by done. by rewrite decide_False.
Qed.

Lemma occurrences_open (s : string) :
  Observe.occurrences (String "<" (String "t" (String "r" (String ">" s))))
    "<tr>"
  = S (Observe.occurrences (String "t" (String "r" (String ">" s))) "<tr>").
Proof.
  cbn [Observe.occurrences HasPrefix]. by rewrite !decide_True by done.
Qed.

(** A field without markup opens no row, whatever follows it. *)
Lemma occurrences_plain (text rest : string) :
  Observe.plain text →
  Observe.occurrences (text +:+ rest) "<tr>" = Observe.occurrences rest "<tr>".
Proof.
  unfold Observe.plain. induction text as [|c text IH]; intros Hplain.
  - by rewrite str_app_nil_l.
  - rewrite str_app_cons, occurrences_skip.
    + apply IH. by eapply Contains_cons_false.
    + intros ->. by apply Contains_head_false in Hplain.
Qed.

(** Count the rows that open in a text made of literal pieces and plain
    fields. *)
Local Ltac count_rows :=
  rewrite ?str_app_assoc; rewrite ?str_app_cons, ?str_app_nil_l;
  repeat first
    [ rewrite occurrences_open
    | rewrite occurrences_skip by done
    | rewrite occurrences_other_tag by done
    | rewrite occurrences_other_t by done
    | rewrite occurrences_plain by assumption ].

(** ** The clients table *)

Lemma clientRow_shown (client : Client) :
  clientRow client = Observe.client_row client.
Proof. apply clientRow_cells. Qed.

(** The row of a client without markup opens one row. *)
Lemma client_row_opens_one (client : Client) (rest : string) :
  Observe.plain_client client →
  Observe.occurrences (Observe.client_row client +:+ rest) "<tr>"
  = S (Observe.occurrences rest "<tr>").
Proof.
  intros (H1 & H2 & H3 & H4 & H5 & H6).
  unfold Observe.client_row, Observe.cell, Observe.nl.
  count_rows. reflexivity.
Qed.

Lemma client_rows_opened (clients : list Client) :
  Forall Observe.plain_client clients →
  Observe.rows_opened (Spec.rows_text (Observe.client_row <$> clients))
  = length clients.
Proof.
  unfold Observe.rows_opened.
  induction 1 as [|client clients Hplain _ IH]; [done|].
  rewrite fmap_cons. simpl Spec.rows_text.
  rewrite client_row_opens_one by done. simpl. by rewrite IH.
Qed.

(** C4, as stated, fails: the fields are written unescaped, so a client
    whose name closes its cell and its row and opens another one gives
    two body rows; here one client, and two rows between [<tbody>] and
    [</tbody>]. *)
Lemma clients_table_markup_adds_row :
  generateHTMLTable [Cases.wrapped]
  = clientsTableHead
    +:+ Spec.rows_text [Observe.client_row Cases.wrapped] +:+ tableFoot
  ∧ Observe.rows_opened (Spec.rows_text [Observe.client_row Cases.wrapped])
    = 2%nat
  ∧ length [Cases.wrapped] = 1%nat.
Proof. split; [|split]; reflexivity. Qed.

(** C4, amended. When the fetch succeeds, the [/clients] page ends with
    the table over [clients] followed by [auto_clients]: its opening,
    then for each client of that concatenation, in its order and as
    often as it occurs, the row with its six fields in their cells, then
    its closing; and when no field holds a [<], the body has as many
    rows as there are clients. *)
Theorem clientsHandler_renders_all_clients (env : Env) (config : Config)
    (clientsResponse : ClientsResponse) :
  value (fetchClients env config) = Ok clientsResponse →
  let allClients := Clients clientsResponse ++ AutoClients clientsResponse in
  let rows := Observe.client_row <$> allClients in
  ∃ content,
    value (clientsHandler env config)
    = Render 200 "base.html" "DNS Clients - Aghamon" content
    ∧ HasSuffix content
        (clientsTableHead +:+ Spec.rows_text rows +:+ tableFoot) = true
    ∧ generateHTMLTable allClients
      = clientsTableHead +:+ Spec.rows_text rows +:+ tableFoot
    ∧ length rows
      = (length (Clients clientsResponse)
         + length (AutoClients clientsResponse))%nat
    ∧ (∀ k client, Clients clientsResponse !! k = Some client →
         rows !! k = Some (Observe.client_row client))
    ∧ (∀ k client, AutoClients clientsResponse !! k = Some client →
         rows !! (length (Clients clientsResponse) + k)%nat
         = Some (Observe.client_row client))
    ∧ (Forall Observe.plain_client allClients →
       Observe.rows_opened (Spec.rows_text rows) = length allClients).
Proof.
  intros Hfetch allClients rows.
  assert (generateHTMLTable allClients
          = clientsTableHead +:+ Spec.rows_text rows +:+ tableFoot) as Htable.
  { rewrite generateHTMLTable_rows. subst rows.
    assert (clientRow <$> allClients = Observe.client_row <$> allClients)
      as ->; [|done].
    apply list_fmap_ext. intros _ client _. apply clientRow_shown. }
  exists (generateClientsContent (Z.of_nat (length allClients))
            (generateHTMLTable allClients)).
  split; [|split; [|split; [|split; [|split; [|split]]]]].
  - unfold clientsHandler. by rewrite value_bind, Hfetch.
  - rewrite <- Htable, generateClientsContent_text.
    apply HasSuffix_spec. eexists. by rewrite <- !str_app_assoc.
  - exact Htable.
  - subst rows allClients. by rewrite length_fmap, length_app.
  - intros k client Hk. subst rows allClients.
    rewrite list_lookup_fmap, lookup_app_l by (by eapply lookup_lt_Some).
    by rewrite Hk.
  - intros k client Hk. subst rows allClients.
    rewrite list_lookup_fmap, lookup_app_r by lia.
    replace (length (Clients clientsResponse) + k
             - length (Clients clientsResponse))%nat with k by lia.
    by rewrite Hk.
  - apply client_rows_opened.
Qed.

Lemma clientsHandler_renders_all_clients_witness :
  ∃ content,
    value (clientsHandler Samples.answering Samples.example_config)
    = Render 200 "base.html" "DNS Clients - Aghamon" content
    ∧ HasSuffix content
        (clientsTableHead
         +:+ Spec.rows_text
               (Observe.client_row
                  <$> [Samples.laptop; Samples.printer; Samples.laptop])
         +:+ tableFoot) = true.
Proof.
  destruct (clientsHandler_renders_all_clients Samples.answering
              Samples.example_config
              {| Clients := [Samples.laptop];
                 AutoClients := [Samples.printer; Samples.laptop];
                 SupportedTags := [] |} eq_refl)
    as (content & Hpage & Hends & _).
  exists content. split; [exact Hpage|exact Hends].
Defined.

(** ** The ranked tables *)














End tables_displayed.
